(** * The in-memory indexer [DocarrayIndexerV3] and the mapping builder

    A shallow embedding of
    [now_executors/docarray_indexer/docarray_indexer_v3.py]: the executor
    object is a record, every endpoint is a computation in a small
    state-and-exception monad over that record, and Python exceptions are
    values of [exception].  The docarray calls the executor makes
    ([extend], slicing, selection by traversal path, [find], [remove],
    [match]) are modelled in [Module Docarray]; query parsing and
    nearest-neighbour matching are parameters of the development. *)

From Stdlib Require Import ZArith Ascii String List Lia DecimalString.
From stdpp Require Import base strings list.
Set Warnings "-register-all".

Open Scope Z_scope.

(** ** Python values, exceptions and built-ins *)

(** The exceptions the code can end with.  [NotModelled] is no Python
    exception: it marks a call into docarray whose outcome this
    development does not describe (a traversal path with slices or
    attribute selectors, a selector that names a document, a query
    operator other than [$eq]).  No statement below is about such a
    call. *)
Inductive exception :=
  KeyError | IndexError | ValueError | AttributeError | TypeError | NotModelled.

Inductive result (A : Type) : Type :=
| Ok (a : A)
| Raise (e : exception).
Arguments Ok {A} a.
Arguments Raise {A} e.

Definition rbind {A B} (r : result A) (k : A -> result B) : result B :=
  match r with Ok a => k a | Raise e => Raise e end.

Notation "'try' x ':=' r 'in' k" := (rbind r (fun x => k))
  (at level 10, x pattern, r at level 100, k at level 200).

Fixpoint rmap {A B} (f : A -> result B) (l : list A) : result (list B) :=
  match l with
  | [] => Ok []
  | x :: l' => try y := f x in try ys := rmap f l' in Ok (y :: ys)
  end.

(** Tag values: the scalars a tag can hold. *)
Inductive scalar := SNull | SBool (b : bool) | SNum (z : Z) | SStr (s : string).

#[global] Instance scalar_eq_dec : EqDecision scalar.
Proof. solve_decision. Defined.

(** Filter expressions and other JSON-like parameter values.  A dict is
    an association list in insertion order, as [list(query.keys())[0]]
    depends on that order. *)
Inductive json :=
| JAtom (s : scalar)
| JList (items : list json)
| JDict (entries : list (string * json)).

Module Py.

(** [sys.maxsize] on a 64-bit build. *)
Definition maxsize : Z := 2 ^ 63 - 1.

(** Normalisation of one slice bound against a sequence of length [n]. *)
Definition clamp (n i : Z) : Z :=
  if i <? 0 then Z.max 0 (i + n) else Z.min i n.

(** [l[start:stop]], negative bounds counting from the end. *)
Definition slice {A} (l : list A) (start stop : Z) : list A :=
  let n := Z.of_nat (length l) in
  let a := clamp n start in
  let b := clamp n stop in
  take (Z.to_nat (b - a)) (drop (Z.to_nat a) l).

Section Dict.
Context {V : Type}.

(** [d.get(k)] *)
Fixpoint dict_get (k : string) (d : list (string * V)) : option V :=
  match d with
  | [] => None
  | (k', v) :: d' => if String.eqb k k' then Some v else dict_get k d'
  end.

(** [d[k] = v]: an existing key keeps its position, a new one goes last. *)
Fixpoint dict_set (k : string) (v : V) (d : list (string * V)) : list (string * V) :=
  match d with
  | [] => [(k, v)]
  | (k', v') :: d' =>
      if String.eqb k k' then (k, v) :: d' else (k', v') :: dict_set k v d'
  end.

(** [del d[k]] for a key that is present. *)
Fixpoint dict_del (k : string) (d : list (string * V)) : list (string * V) :=
  match d with
  | [] => []
  | (k', v') :: d' => if String.eqb k k' then d' else (k', v') :: dict_del k d'
  end.
End Dict.

(** [for query in v]: the items a [for] loop sees. *)
Definition iter (v : json) : result (list json) :=
  match v with
  | JList items => Ok items
  | JDict entries => Ok (map (fun kv => JAtom (SStr (fst kv))) entries)
  | JAtom (SStr s) => Ok (map (fun c => JAtom (SStr (String c EmptyString))) (list_ascii_of_string s))
  | JAtom _ => Raise TypeError
  end.

End Py.

(** ** The docarray API the executor relies on *)

Module Docarray.

(** A [Document], reduced to the attributes the executor reads or
    writes.  [parent_id] is the empty string when unset. *)
Inductive Document := mkDocument {
  id : string;
  parent_id : string;
  uri : string;
  tags : list (string * scalar);
  chunks : list Document;
  matches : list Document
}.

Definition Document_eq_dec : forall a b : Document, {a = b} + {a <> b}.
Proof.
  fix IH 1. intros [i p u t c m] [i' p' u' t' c' m'].
  destruct (decide (i = i')) as [->|]; [|right; congruence].
  destruct (decide (p = p')) as [->|]; [|right; congruence].
  destruct (decide (u = u')) as [->|]; [|right; congruence].
  destruct (decide (t = t')) as [->|]; [|right; congruence].
  destruct (List.list_eq_dec IH c c') as [->|]; [|right; congruence].
  destruct (List.list_eq_dec IH m m') as [->|]; [|right; congruence].
  left; reflexivity.
Defined.

#[global] Instance Document_eqdec : EqDecision Document := Document_eq_dec.

(** [d.chunks = cs] and [d.matches = ms] *)
Definition set_chunks (d : Document) (cs : list Document) : Document :=
  mkDocument (id d) (parent_id d) (uri d) (tags d) cs (matches d).

Definition set_matches (d : Document) (ms : list Document) : Document :=
  mkDocument (id d) (parent_id d) (uri d) (tags d) (chunks d) ms.

(** [copy.deepcopy]: values are immutable here, so the copy is the value. *)
Definition deepcopy (d : Document) : Document := d.

(** A [DocumentArray] of the in-memory backend: the documents in
    insertion order.  [extend] is [++] and [len] is [length]. *)
Abbreviation DocumentArray := (list Document).

(** One traversal path made of the letters [r], [c] and [m]: [r]
    stays, [c] descends to the chunks, [m] to the matches.  Paths with
    anything else (slices such as [r[0]], attribute selectors) are not
    modelled. *)
Fixpoint traverse (path : string) (docs : DocumentArray) : result DocumentArray :=
  match path with
  | EmptyString => Ok docs
  | String c rest =>
      if Ascii.eqb c "r"%char then traverse rest docs
      else if Ascii.eqb c "c"%char then traverse rest (flat_map chunks docs)
      else if Ascii.eqb c "m"%char then traverse rest (flat_map matches docs)
      else Raise NotModelled
  end.

Fixpoint split_comma (s : string) : list string :=
  match s with
  | EmptyString => [EmptyString]
  | String c rest =>
      if Ascii.eqb c ","%char then EmptyString :: split_comma rest
      else match split_comma rest with
           | h :: t => String c h :: t
           | [] => [String c EmptyString]
           end
  end.

(** [da.traverse_flat(paths)]: the results of the comma-separated
    paths, concatenated; an empty path ([@], [@r,]) is refused. *)
Definition traverse_flat (paths : string) (docs : DocumentArray) : result DocumentArray :=
  let segments := split_comma paths in
  if existsb (String.eqb EmptyString) segments then Raise ValueError
  else
    try parts := rmap (fun p => traverse p docs) segments in
    Ok (concat parts).

(** [da[key]] for a document id.  The backend keeps a table from id to
    offset in which a later document overwrites an earlier one with
    the same id. *)
Fixpoint get_by_id (key : string) (docs : DocumentArray) : option Document :=
  match docs with
  | [] => None
  | d :: docs' =>
      match get_by_id key docs' with
      | Some d' => Some d'
      | None => if String.eqb (id d) key then Some d else None
      end
  end.

(** [da[selector]] for a string that selects by traversal path
    ([@r], [@c], [@cc], [@r,c], ...).  A string without the [@] names
    one document by id: [KeyError] when no stored document has it; when
    one has, the answer is a [Document], not an array, and what the
    executor does with it is not modelled. *)
Definition getitem_path (docs : DocumentArray) (selector : string) : result DocumentArray :=
  match selector with
  | String c paths =>
      if Ascii.eqb c "@"%char then traverse_flat paths docs
      else match get_by_id selector docs with
           | None => Raise KeyError
           | Some _ => Raise NotModelled
           end
  | EmptyString =>
      match get_by_id selector docs with
      | None => Raise KeyError
      | Some _ => Raise NotModelled
      end
  end.

(** What [da.find(filter=...)] hands back: for an empty filter the
    array itself (the same object, not a copy), otherwise a new array
    of the documents that satisfy the filter. *)
Inductive found :=
| Self
| Fresh (docs : DocumentArray).

(** [da.remove(doc)], the [MutableSequence] method: delete the first
    element equal to [doc], [ValueError] when there is none.  Two
    documents are equal when all their attributes are. *)
Fixpoint remove (doc : Document) (docs : DocumentArray) : result DocumentArray :=
  match docs with
  | [] => Raise ValueError
  | d :: docs' =>
      if bool_decide (d = doc) then Ok docs'
      else try r := remove doc docs' in Ok (d :: r)
  end.

Section Find.
(** The query parser of the backend: a filter dict denotes a
    predicate on documents, or is rejected. *)
Variable QueryParser : json -> result (Document -> bool).

(** [da.find(filter=filter)]: all the documents that satisfy the filter,
    in stored order; nothing is parsed for the empty filter. *)
Definition find (docs : DocumentArray) (filter : json) : result found :=
  match filter with
  | JDict [] => Ok Self
  | _ => try check := QueryParser filter in Ok (Fresh (List.filter check docs))
  end.
End Find.

End Docarray.

(** ** The executor *)

Module DocarrayIndexerV3.
Import Docarray.

(** [self]: the two attributes set by [__init__].  The attribute
    [index] holds the stored documents (it hides the endpoint of the
    same name, which is [index_] below). *)
Record Executor := mkExecutor {
  traversal_paths : string;
  index : DocumentArray
}.

(** [__init__(traversal_paths="@r")] *)
Definition init (traversal_paths : string) : Executor :=
  mkExecutor traversal_paths [].

(** The [parameters] dict of a request, one field per key an endpoint
    or a caller uses; [None] is an absent key.  No endpoint of this
    executor reads [ids]. *)
Record Parameters := mkParameters {
  p_limit : option Z;
  p_offset : option Z;
  p_filter : option json;
  p_traversal_paths : option string;
  p_ids : option (list string)
}.

Definition no_parameters : Parameters := mkParameters None None None None None.

(** [parameters.get(key, default)] *)
Definition get {A} (field : option A) (default : A) : A :=
  match field with Some v => v | None => default end.

(** *** State and exceptions

    A computation runs on the executor and ends with a value or a
    raised exception; the executor as it is at that moment is returned
    in both cases, so what a failing call has already written stays
    written. *)
Definition M (A : Type) : Type := Executor -> result A * Executor.

Definition ret {A} (a : A) : M A := fun self => (Ok a, self).

Definition bind {A B} (m : M A) (k : A -> M B) : M B :=
  fun self =>
    match m self with
    | (Ok a, self') => k a self'
    | (Raise e, self') => (Raise e, self')
    end.

Definition lift {A} (r : result A) : M A := fun self => (r, self).

Definition self_index : M DocumentArray := fun self => (Ok (index self), self).

Definition self_traversal_paths : M string :=
  fun self => (Ok (traversal_paths self), self).

(** [self.index = docs] *)
Definition set_self_index (docs : DocumentArray) : M unit :=
  fun self => (Ok tt, mkExecutor (traversal_paths self) docs).

Notation "'let*' x ':=' m 'in' k" := (bind m (fun x => k))
  (at level 10, x pattern, m at level 100, k at level 200).
Notation "m ';;' k" := (bind m (fun _ => k))
  (at level 100, k at level 200, right associativity).

Fixpoint for_each {A} (f : A -> M unit) (l : list A) : M unit :=
  match l with
  | [] => ret tt
  | x :: l' => f x ;; for_each f l'
  end.

(** *** [index] and [list] *)

(** [index(docs)]: [self.index.extend(docs)], answering with an empty
    array. *)
Definition index_ (docs : DocumentArray) : M DocumentArray :=
  let* stored := self_index in
  set_self_index (stored ++ docs) ;;
  ret [].

(** [Document(id=d.id, uri=d.uri, tags=d.tags)] *)
Definition lightweight (d : Document) : Document :=
  mkDocument (id d) "" (uri d) (tags d) [] [].

(** [list(parameters)] *)
Definition list_ (parameters : Parameters) : M DocumentArray :=
  let limit := get (p_limit parameters) Py.maxsize in
  let offset := get (p_offset parameters) 0 in
  let* stored := self_index in
  let part := Py.slice stored offset (offset + limit) in
  ret (map lightweight part).

(** *** The filter rewrite of [filter_docs] *)

(** The loop body: [tag = list(query.keys())[0]], then the entry is
    written under the prefixed key and the old key deleted. *)
Definition adapt_query (query : json) : result json :=
  match query with
  | JDict entries =>
      match entries with
      | [] => Raise IndexError
      | (tag, value) :: _ =>
          Ok (JDict (Py.dict_del tag (Py.dict_set ("tags__" +:+ tag) value entries)))
      end
  | _ => Raise AttributeError
  end.

(** Lines 107 to 113: only a filter with a top-level [$and] is
    touched, and under it every item's first key. *)
Definition adapt_filter (filter : json) : result json :=
  match filter with
  | JDict entries =>
      match Py.dict_get "$and" entries with
      | None => Ok filter
      | Some (JList queries) =>
          try queries' := rmap adapt_query queries in
          Ok (JDict (Py.dict_set "$and" (JList queries') entries))
      | Some other =>
          try queries := Py.iter other in
          try _ := rmap adapt_query queries in
          Ok filter
      end
  | _ => Raise AttributeError
  end.

Section Backend.
(** The two docarray services whose results the executor only passes
    on: the parser of filter expressions, and [docs.match(candidates,
    limit=n)], which answers the query documents with their
    [matches] set to the nearest candidates. *)
Variable QueryParser : json -> result (Document -> bool).
Variable da_match : DocumentArray -> DocumentArray -> Z -> result DocumentArray.

(** [filter_docs(parameters)] *)
Definition filter_docs (parameters : Parameters) : M found :=
  let filter := get (p_filter parameters) (JDict []) in
  let* filter := lift (adapt_filter filter) in
  let* stored := self_index in
  lift (find QueryParser stored filter).

(** The documents a [found] stands for once the loop or the match
    reads it. *)
Definition resolve (f : found) : M DocumentArray :=
  match f with
  | Self => self_index
  | Fresh docs => ret docs
  end.

(** *** [merge_matches] *)

(** The inner loop over [d.matches], with the two accumulators. *)
Fixpoint merge_loop (stored : DocumentArray) (limit : Z) (ms : list Document)
    (parents : list Document) (parent_ids : list string) : result (list Document) :=
  match ms with
  | [] => Ok parents
  | m :: ms' =>
      if bool_decide (parent_id m ∈ parent_ids) then
        merge_loop stored limit ms' parents parent_ids
      else
        match get_by_id (parent_id m) stored with
        | None => Raise KeyError
        | Some parent =>
            let parent := deepcopy parent in
            let parent := set_chunks parent [] in
            let parents := parents ++ [parent] in
            let parent_ids := parent_ids ++ [parent_id m] in
            if Z.of_nat (length parents) =? limit then Ok parents
            else merge_loop stored limit ms' parents parent_ids
        end
  end.

Definition merge_doc (stored : DocumentArray) (limit : Z) (d : Document) : result Document :=
  try parents := merge_loop stored limit (matches d) [] [] in
  Ok (set_matches d parents).

(** [merge_matches(docs, limit)]; the documents are answered with
    their new [matches]. *)
Definition merge_matches (docs : DocumentArray) (limit : Z) : M DocumentArray :=
  let* stored := self_index in
  lift (rmap (merge_doc stored limit) docs).

(** *** [search] *)

Definition search (docs : DocumentArray) (parameters : Parameters) : M DocumentArray :=
  let limit := get (p_limit parameters) 20 in
  let* default_paths := self_traversal_paths in
  let traversal_paths := get (p_traversal_paths parameters) default_paths in
  let* stored := self_index in
  let* selected := lift (getitem_path stored traversal_paths) in
  set_self_index selected ;;
  let* filtered_docs := filter_docs parameters in
  let* (docs, match_limit) :=
    if String.eqb traversal_paths "@c" then
      match docs with
      | [] => lift (Raise IndexError)
      | first :: _ => ret (chunks first, limit * 10)
      end
    else ret (docs, limit) in
  let* candidates := resolve filtered_docs in
  let* docs := lift (da_match docs candidates match_limit) in
  if String.eqb traversal_paths "@c" then merge_matches docs limit
  else ret docs.

(** *** [delete] *)

(** [self.index.remove(doc)] *)
Definition remove_from_index (doc : Document) : M unit :=
  let* stored := self_index in
  let* stored := lift (remove doc stored) in
  set_self_index stored.

(** [for doc in self.index: self.index.remove(doc)]: the iterator
    walks the array that the body shrinks, by position.  At most
    [len] positions are visited, which bounds the recursion. *)
Fixpoint remove_while_iterating (fuel : nat) (position : nat) : M unit :=
  match fuel with
  | O => ret tt
  | S fuel' =>
      let* stored := self_index in
      match stored !! position with
      | None => ret tt
      | Some doc =>
          remove_from_index doc ;;
          remove_while_iterating fuel' (S position)
      end
  end.

Definition delete (parameters : Parameters) : M DocumentArray :=
  let* filtered_docs := filter_docs parameters in
  match filtered_docs with
  | Self =>
      let* stored := self_index in
      remove_while_iterating (length stored) 0%nat
  | Fresh docs => for_each remove_from_index docs
  end ;;
  ret [].

(** *** [filter] *)

Definition filter_ (parameters : Parameters) : M DocumentArray :=
  let filtering_condition := get (p_filter parameters) (JDict []) in
  let* default_paths := self_traversal_paths in
  let traversal_paths := get (p_traversal_paths parameters) default_paths in
  let* stored := self_index in
  let* selected := lift (getitem_path stored traversal_paths) in
  let* result := lift (find QueryParser selected filtering_condition) in
  match result with
  | Self => ret selected
  | Fresh docs => ret docs
  end.

End Backend.

End DocarrayIndexerV3.

(** ** A concrete backend

    One instance of the two backend services, used to run the endpoints
    on concrete requests: a parser for the documented core of the query
    language, and a matcher that ranks the candidates in stored order. *)

Module InMemory.
Import Docarray.

(** The field paths this instance reads: [tags__k], the tag [k], and
    the attributes [id], [uri], [parent_id]. *)
Definition modelled_field (field : string) : bool :=
  String.prefix "tags__" field
  || String.eqb field "id" || String.eqb field "uri" || String.eqb field "parent_id".

Definition lookup (field : string) (d : Document) : option scalar :=
  if String.prefix "tags__" field then
    Py.dict_get (String.substring 6 (String.length field - 6) field) (tags d)
  else if String.eqb field "id" then Some (SStr (id d))
  else if String.eqb field "uri" then Some (SStr (uri d))
  else if String.eqb field "parent_id" then Some (SStr (parent_id d))
  else None.

Definition same (actual : option scalar) (operand : json) : bool :=
  match actual, operand with
  | Some a, JAtom b => bool_decide (a = b)
  | _, _ => false
  end.

(** The comparison operators of the query language besides [$eq]. *)
Definition other_operators : list string :=
  ["$lt"; "$gt"; "$lte"; "$gte"; "$neq"; "$exists"; "$regex"; "$size"; "$in"; "$nin"].

(** One comparison [{op: operand}] on a field.  An operator outside the
    query language is refused with [ValueError]; of the language only
    [$eq] on the fields above is modelled. *)
Definition comparison (field op : string) (operand : json) : result (Document -> bool) :=
  if String.eqb op "$eq" then
    if modelled_field field then Ok (fun d => same (lookup field d) operand)
    else Raise NotModelled
  else if bool_decide (op ∈ other_operators) then Raise NotModelled
  else Raise ValueError.

Definition all_of (checks : list (Document -> bool)) (d : Document) : bool :=
  forallb (fun check => check d) checks.

Definition any_of (checks : list (Document -> bool)) (d : Document) : bool :=
  existsb (fun check => check d) checks.

(** A filter dict is the conjunction of its entries: [$and] and [$or]
    over a list of filters, or a field with its comparisons.  Another
    key that starts with [$], and a field whose value is not a
    non-empty dict, are refused with [ValueError]; [$not] and the dict
    form of [$and] and [$or] are not modelled. *)
Fixpoint QueryParser (filter : json) : result (Document -> bool) :=
  match filter with
  | JDict entries =>
      try checks :=
        (fix parse_entries (es : list (string * json)) : result (list (Document -> bool)) :=
           match es with
           | [] => Ok []
           | (key, value) :: es' =>
               try check :=
                 if String.eqb key "$and" || String.eqb key "$or" then
                   match value with
                   | JList items =>
                       try subs :=
                         (fix parse_items (l : list json) : result (list (Document -> bool)) :=
                            match l with
                            | [] => Ok []
                            | item :: l' =>
                                try c := QueryParser item in
                                try cs := parse_items l' in
                                Ok (c :: cs)
                            end) items in
                       if String.eqb key "$and" then Ok (all_of subs) else Ok (any_of subs)
                   | _ => Raise NotModelled
                   end
                 else if String.eqb key "$not" then Raise NotModelled
                 else if String.prefix "$" key then Raise ValueError
                 else
                   match value with
                   | JDict (c :: cs) =>
                       try checks := rmap (fun c => comparison key (fst c) (snd c)) (c :: cs) in
                       Ok (all_of checks)
                   | _ => Raise ValueError
                   end in
               try checks := parse_entries es' in
               Ok (check :: checks)
           end) entries in
      Ok (all_of checks)
  | _ => Raise ValueError
  end.

(** [docs.match(candidates, limit=n)] with the candidates taken in
    stored order: nothing happens when either side is empty, and a
    limit that is not positive is refused. *)
Definition da_match (docs candidates : DocumentArray) (limit : Z) : result DocumentArray :=
  match docs, candidates with
  | [], _ | _, [] => Ok docs
  | _, _ =>
      if limit <=? 0 then Raise ValueError
      else Ok (map (fun d => set_matches d (take (Z.to_nat limit) candidates)) docs)
  end.

End InMemory.

(** ** The mapping builder of the persistent backend *)

Module NOWElasticIndexer.

(** The configuration entry the tests build as
    [FieldEmbedding(encoder, dimension, fields)]. *)
Record FieldEmbedding := mkFieldEmbedding {
  encoder : string;
  dimension : Z;
  fields : list string
}.

Inductive mapping_result :=
| Schema (mapping : json)
| ConfigurationError.

Definition text (s : string) : json := JAtom (SStr s).

(** The [(document_field, encoder, dimension)] triples of a
    configuration, in the order of the list. *)
Definition field_encodings (document_mappings : list FieldEmbedding)
    : list (string * string * Z) :=
  flat_map (fun fe => map (fun f => (f, encoder fe, dimension fe)) (fields fe))
           document_mappings.

Definition field_name (document_field encoder : string) : string :=
  document_field +:+ "-" +:+ encoder.

Definition vector_field (metric : string) (fe : string * string * Z) : string * json :=
  let '(document_field, encoder, dims) := fe in
  (field_name document_field encoder,
   JDict [("properties",
     JDict [("embedding",
       JDict [("type", text "dense_vector");
              ("dims", text (NilZero.string_of_int (Z.to_int dims)));
              ("similarity", text metric);
              ("index", text "true")])])]).

(** The similarities a [dense_vector] field accepts. *)
Definition supported_metrics : list string := ["cosine"; "dot_product"; "l2_norm"].

Definition valid (metric : string) (encodings : list (string * string * Z)) : bool :=
  bool_decide (metric ∈ supported_metrics)
  && forallb (fun fe => 0 <? snd fe) encodings
  && bool_decide (NoDup (map fst encodings)).

(** Modelled from the spec: [generate_es_mapping] of
    [now.executor.indexer.elastic.elastic_indexer], of which only the
    test [test_generate_es_mappings] is at hand.  One keyword [id]
    field, one analyzed [bm25_text] field, then one vector sub-object
    per [(document_field, encoder)] pair in configuration order, the
    dimension written as a string; a non-positive dimension, a
    repeated pair or an unsupported metric is a
    [ConfigurationError]. *)
Definition generate_es_mapping (document_mappings : list FieldEmbedding) (metric : string)
    : mapping_result :=
  let encodings := field_encodings document_mappings in
  if valid metric encodings then
    Schema (JDict [("properties",
      JDict (("id", JDict [("type", text "keyword")])
             :: ("bm25_text", JDict [("type", text "text"); ("analyzer", text "standard")])
             :: map (vector_field metric) encodings))])
  else ConfigurationError.

End NOWElasticIndexer.

(** ** Statements about the executor *)

Import Docarray DocarrayIndexerV3.

(** How many stored documents carry a given id. *)
Definition count_id (i : string) (docs : DocumentArray) : nat :=
  length (List.filter (fun d => String.eqb (id d) i) docs).

(** The [parameters] of a [list] request. *)
Definition paging (limit offset : option Z) : Parameters :=
  mkParameters limit offset None None None.

(** What [merge_matches] leaves on every query document. *)
Definition deduplicated (limit : Z) (d : Document) : Prop :=
  Z.of_nat (length (matches d)) <= limit
  /\ NoDup (map id (matches d))
  /\ Forall (fun p => chunks p = []) (matches d).

(** The path a request runs under. *)
Definition effective_paths (parameters : Parameters) (self : Executor) : string :=
  get (p_traversal_paths parameters) (traversal_paths self).

(** The filter shape the specification supports: one top-level [$and]
    over leaf predicates, each a single key with a single operator. *)
Definition single_operator (condition : json) : bool :=
  match condition with
  | JDict [_] => true
  | _ => false
  end.

Definition leaf_predicate (query : json) : bool :=
  match query with
  | JDict [(_, condition)] => single_operator condition
  | _ => false
  end.

Definition supported_shape (filter : json) : bool :=
  match filter with
  | JDict [(key, JList queries)] => String.eqb key "$and" && forallb leaf_predicate queries
  | _ => false
  end.

(** The translation in the specification's words: the key of every leaf
    predicate moves into the tag namespace, its operator and value stay. *)
Definition prefix_leaf (query : json) : json :=
  match query with
  | JDict [(key, condition)] => JDict [("tags__" +:+ key, condition)]
  | _ => query
  end.

Definition translate (filter : json) : json :=
  match filter with
  | JDict [(key, JList queries)] => JDict [(key, JList (map prefix_leaf queries))]
  | _ => filter
  end.

(** What the loop of [filter_docs] does to an item that is a dict with
    at least one key, whatever else the item holds. *)
Definition prefix_first_key (query : json) : json :=
  match query with
  | JDict ((tag, value) :: more) =>
      JDict (Py.dict_del tag (Py.dict_set ("tags__" +:+ tag) value ((tag, value) :: more)))
  | _ => query
  end.

Definition keyed_dict (query : json) : bool :=
  match query with
  | JDict (_ :: _) => true
  | _ => false
  end.

(** The [parameters] of a [delete] or [search] request with a filter. *)
Definition filtering (filter : json) (ids : option (list string)) : Parameters :=
  mkParameters None None (Some filter) None ids.

(** The outcome of the rewrite for a filter dict whose [$and], if it has
    one, is a list of dicts with at least one key each. *)
Definition itemised (entries : list (string * json)) : bool :=
  match Py.dict_get "$and" entries with
  | None => true
  | Some (JList queries) => forallb keyed_dict queries
  | Some _ => false
  end.

Definition rewritten (entries : list (string * json)) : json :=
  match Py.dict_get "$and" entries with
  | Some (JList queries) =>
      JDict (Py.dict_set "$and" (JList (map prefix_first_key queries)) entries)
  | _ => JDict entries
  end.

(** *** Sample data

    Two stored documents with their chunks, query documents, requests
    and a field-encoding configuration, on which the endpoints are run
    below. *)

Module Sample.

Definition c1 : Document := mkDocument "c1" "r1" "" [] [] [].
Definition c2 : Document := mkDocument "c2" "r1" "" [] [] [].
Definition c3 : Document := mkDocument "c3" "r2" "" [] [] [].

Definition r1 : Document :=
  mkDocument "r1" "" "u1" [("color", SStr "red")] [c1; c2] [].
Definition r2 : Document :=
  mkDocument "r2" "" "u2" [("color", SStr "blue")] [c3] [].

(** A second version of [r1]: the same id, another tag value, one chunk. *)
Definition r1_again : Document :=
  mkDocument "r1" "" "u1" [("color", SStr "green")] [c1] [].

Definition store : Executor := mkExecutor "@r" [r1; r2].

(** A query document with one chunk, and one without chunks. *)
Definition query_chunk : Document := mkDocument "qc" "q" "" [] [] [].
Definition query : Document := mkDocument "q" "" "" [] [query_chunk] [].
Definition bare_query : Document := mkDocument "q0" "" "" [] [] [].

(** A query chunk as chunk matching may leave it: three matched chunks
    of two parents. *)
Definition matched_chunk : Document := set_matches query_chunk [c1; c2; c3].

Definition chunk_level : Parameters :=
  mkParameters None None None (Some "@c") None.

Definition atom (s : string) : json := JAtom (SStr s).

(** [{'$and': [{'color': {'$eq': 'red'}}]}] *)
Definition and_color : json :=
  JDict [("$and", JList [JDict [("color", JDict [("$eq", atom "red")])]])].

(** [{'tags__color': {'$eq': 'red'}}], a leaf with no [$and] above it. *)
Definition bare_leaf : json :=
  JDict [("tags__color", JDict [("$eq", atom "red")])].

(** [{'$and': [{'color': {'$eq': 'red'}, 'size': {'$eq': 1}}]}] *)
Definition two_keys : list (string * json) :=
  [("$and", JList [JDict [("color", JDict [("$eq", atom "red")]);
                          ("size", JDict [("$eq", JAtom (SNum 1))])]])].

(** The configuration of [test_generate_es_mappings] and the mapping
    the test expects. *)
Definition document_mappings : list NOWElasticIndexer.FieldEmbedding :=
  [NOWElasticIndexer.mkFieldEmbedding "clip" 8 ["title"];
   NOWElasticIndexer.mkFieldEmbedding "sbert" 5 ["title"; "excerpt"]].

Definition dense_vector (dims : string) : json :=
  JDict [("properties",
    JDict [("embedding",
      JDict [("type", atom "dense_vector");
             ("dims", atom dims);
             ("similarity", atom "cosine");
             ("index", atom "true")])])].

Definition expected_mapping : json :=
  JDict [("properties",
    JDict [("id", JDict [("type", atom "keyword")]);
           ("bm25_text", JDict [("type", atom "text"); ("analyzer", atom "standard")]);
           ("title-clip", dense_vector "8");
           ("title-sbert", dense_vector "5");
           ("excerpt-sbert", dense_vector "5")])].

End Sample.

(** *** Further vocabulary *)

(** The keys of a list in the order of their first occurrence, skipping
    those already [seen]. *)
Fixpoint first_occurrences (seen keys : list string) : list string :=
  match keys with
  | [] => []
  | k :: keys' =>
      if bool_decide (k ∈ seen) then first_occurrences seen keys'
      else k :: first_occurrences (seen ++ [k]) keys'
  end.

(** The stored document of each key, its chunks taken off. *)
Definition stripped_parents (stored : DocumentArray) (keys : list string) : list Document :=
  omap (fun k => option_map (fun p => set_chunks p []) (get_by_id k stored)) keys.

(** The parent ids [merge_matches] looks up for a query document: the
    first [limit] distinct ones among its matches, in match order. *)
Definition wanted_parents (limit : Z) (d : Document) : list string :=
  take (Z.to_nat limit) (first_occurrences [] (map parent_id (matches d))).

Definition stored_key (stored : DocumentArray) (k : string) : bool :=
  match get_by_id k stored with Some _ => true | None => false end.

(** ** The callers of the indexer *)

(** The search route of the gateway,
    [deployment/bff/app/v1/routers/search.py]. *)
Module BffSearch.

(** [{key: {'$eq': value} for key, value in data.filters.items()}] *)
Definition query_filter (filters : list (string * json)) : list (string * json) :=
  map (fun kv => (fst kv, JDict [("$eq", snd kv)])) filters.

(** [parameters={'limit': data.limit, 'filter': query_filter}] *)
Definition parameters (limit : Z) (filters : list (string * json)) : Parameters :=
  mkParameters (Some limit) None (Some (JDict (query_filter filters))) None None.

End BffSearch.

(** The request helpers of the playground,
    [deployment/playground/src/search.py]. *)
Module Playground.

(** The values a request is made of.  [VFrozen] is a [frozendict];
    [VOpaque] is any object that is neither a string, a mapping nor a
    collection, of which only whether it is hashable matters (numbers
    and booleans are [VNum]). *)
Inductive value :=
| VNone
| VStr (s : string)
| VNum (z : Z)
| VList (items : list value)
| VTuple (items : list value)
| VDict (entries : list (string * value))
| VFrozen (entries : list (string * value))
| VOpaque (hashable : bool).

(** [deep_freeze(thing)] *)
Fixpoint deep_freeze (thing : value) : result value :=
  match thing with
  | VNone | VStr _ => Ok thing
  | VDict entries | VFrozen entries =>
      try frozen :=
        (fix freeze_items (es : list (string * value)) : result (list (string * value)) :=
           match es with
           | [] => Ok []
           | (k, v) :: es' =>
               try v' := deep_freeze v in
               try rest := freeze_items es' in
               Ok ((k, v') :: rest)
           end) entries in
      Ok (VFrozen frozen)
  | VList items | VTuple items =>
      try frozen :=
        (fix freeze_all (l : list value) : result (list value) :=
           match l with
           | [] => Ok []
           | i :: l' =>
               try i' := deep_freeze i in
               try rest := freeze_all l' in
               Ok (i' :: rest)
           end) items in
      Ok (VTuple frozen)
  | VOpaque false => Raise TypeError
  | VNum _ | VOpaque true => Ok thing
  end.

(** [unfreeze_param(data)]: a new dict; only values that are
    [frozendict]s are converted, recursively. *)
Fixpoint unfreeze_param (data : value) : result value :=
  match data with
  | VDict entries | VFrozen entries =>
      try new_data :=
        (fix unfreeze_items (es : list (string * value)) : result (list (string * value)) :=
           match es with
           | [] => Ok []
           | (k, v) :: es' =>
               try v' :=
                 match v with
                 | VFrozen _ => unfreeze_param v
                 | _ => Ok v
                 end in
               try rest := unfreeze_items es' in
               Ok ((k, v') :: rest)
           end) entries in
      Ok (VDict new_data)
  | _ => Raise AttributeError
  end.

(** What [call_flow] works on: behind [deep_freeze_args] the [data]
    argument arrives frozen, and the body starts with
    [data = unfreeze_param(data)]. *)
Definition call_flow_data (data : value) : result value :=
  try frozen := deep_freeze data in
  unfreeze_param frozen.

End Playground.

(** *** Vocabulary for the request values *)

Import Playground.

(** Values that [deep_freeze] has nothing to do on: hashable scalars
    and tuples of such values. *)
Fixpoint immutable (v : value) : bool :=
  match v with
  | VNone | VStr _ | VNum _ | VOpaque true => true
  | VTuple items => forallb immutable items
  | _ => false
  end.

(** Request data as the playground builds it: dicts, nested to any
    depth, of immutable values. *)
Fixpoint plain (v : value) : bool :=
  match v with
  | VDict entries => forallb (fun kv => plain (snd kv)) entries
  | _ => immutable v
  end.

(** Values without a dict or a list at any depth. *)
Fixpoint frozen (v : value) : bool :=
  match v with
  | VNone | VStr _ | VNum _ | VOpaque true => true
  | VTuple items => forallb frozen items
  | VFrozen entries => forallb (fun kv => frozen (snd kv)) entries
  | _ => false
  end.

(** Values without an unhashable object at any depth. *)
Fixpoint freezable (v : value) : bool :=
  match v with
  | VOpaque hashable => hashable
  | VList items | VTuple items => forallb freezable items
  | VDict entries | VFrozen entries => forallb (fun kv => freezable (snd kv)) entries
  | _ => true
  end.

(** The two comprehensions of [deep_freeze] and the loop of
    [unfreeze_param], on their own. *)
Definition freeze_entries (entries : list (string * value)) : result (list (string * value)) :=
  rmap (fun kv => try v' := deep_freeze (snd kv) in Ok (fst kv, v')) entries.

Definition freeze_items (items : list value) : result (list value) :=
  rmap deep_freeze items.

Definition thaw (v : value) : result value :=
  match v with
  | VFrozen _ => unfreeze_param v
  | _ => Ok v
  end.

Definition unfreeze_entries (entries : list (string * value)) : result (list (string * value)) :=
  rmap (fun kv => try v' := thaw (snd kv) in Ok (fst kv, v')) entries.

(** *** Slices *)

Lemma slice_take_drop {A} (l : list A) (offset limit : Z) :
  0 <= offset -> 0 <= limit ->
  Py.slice l offset (offset + limit) = take (Z.to_nat limit) (drop (Z.to_nat offset) l).
Proof.
  intros Hoff Hlim. unfold Py.slice, Py.clamp.
  destruct (Z.ltb_spec offset 0) as [?|_]; [lia|].
  destruct (Z.ltb_spec (offset + limit) 0) as [?|_]; [lia|].
  set (n := Z.of_nat (length l)).
  destruct (Z.le_gt_cases n offset) as [Hge|Hlt].
  - rewrite Z.min_r by lia.
    rewrite !drop_ge by (subst n; lia). by rewrite !take_nil.
  - rewrite (Z.min_l offset n) by lia.
    destruct (Z.le_gt_cases (offset + limit) n) as [Hin|Hout].
    + rewrite Z.min_l by lia. do 2 f_equal. lia.
    + rewrite Z.min_r by lia.
      rewrite !take_ge; [done | |]; rewrite length_drop; subst n; lia.
Qed.

Lemma slice_unbounded {A} (l : list A) (offset : Z) :
  0 <= offset -> Z.of_nat (length l) <= Py.maxsize ->
  Py.slice l offset (offset + Py.maxsize) = drop (Z.to_nat offset) l.
Proof.
  intros Hoff Hlen. rewrite slice_take_drop; [|done|unfold Py.maxsize; lia].
  apply take_ge. rewrite length_drop. lia.
Qed.

(** *** [index] *)

Lemma index_run (self : Executor) (docs : DocumentArray) :
  index_ docs self = (Ok [], mkExecutor (traversal_paths self) (index self ++ docs)).
Proof. reflexivity. Qed.

Lemma count_id_app (i : string) (l1 l2 : DocumentArray) :
  count_id i (l1 ++ l2) = (count_id i l1 + count_id i l2)%nat.
Proof. unfold count_id. by rewrite List.filter_app, length_app. Qed.

(** C3, as amended: [index] appends.  The batch goes to the end of the
    store in its order, every document stored before stays where it
    was, and for each id the number of stored documents with that id
    grows by the number of documents of the batch with that id; nothing
    is replaced. *)
Theorem index_appends (self : Executor) (docs : DocumentArray) :
  exists self',
    index_ docs self = (Ok [], self')
    /\ index self' = index self ++ docs
    /\ traversal_paths self' = traversal_paths self
    /\ forall i, count_id i (index self') = (count_id i (index self) + count_id i docs)%nat.
Proof.
  eexists. split; [apply index_run|]. simpl.
  repeat split. intros i. apply count_id_app.
Qed.

(** *** [list] *)

Lemma list_run (self : Executor) (parameters : Parameters) :
  list_ parameters self =
  (Ok (map lightweight
         (Py.slice (index self) (get (p_offset parameters) 0)
            (get (p_offset parameters) 0 + get (p_limit parameters) Py.maxsize))),
   self).
Proof. reflexivity. Qed.

(** C6: [list] pages through the store in insertion order.  With [N]
    stored documents, [limit] and [offset] being counts, the answer is
    the lightweight copies of the stored documents after the first
    [offset], at most [limit] of them; an absent [offset] is 0 and an
    absent [limit] is no bound; [limit = 1] answers exactly one document
    of a non-empty store, [offset = 1] answers [N - 1], and an offset of
    [N] or more answers the empty array without an exception. *)
Theorem list_pagination (self : Executor) (limit offset : Z) :
  0 <= limit -> 0 <= offset ->
  Z.of_nat (length (index self)) <= Py.maxsize ->
  list_ (paging (Some limit) (Some offset)) self
    = (Ok (map lightweight (take (Z.to_nat limit) (drop (Z.to_nat offset) (index self)))), self)
  /\ list_ (paging None (Some offset)) self
    = (Ok (map lightweight (drop (Z.to_nat offset) (index self))), self)
  /\ list_ (paging (Some limit) None) self
    = (Ok (map lightweight (take (Z.to_nat limit) (index self))), self)
  /\ list_ (paging None None) self = (Ok (map lightweight (index self)), self)
  /\ (index self <> [] ->
      exists d, list_ (paging (Some 1) None) self = (Ok [d], self))
  /\ (exists part, list_ (paging None (Some 1)) self = (Ok part, self)
                   /\ length part = (length (index self) - 1)%nat)
  /\ (Z.of_nat (length (index self)) <= offset ->
      list_ (paging (Some limit) (Some offset)) self = (Ok [], self)
      /\ list_ (paging None (Some offset)) self = (Ok [], self)).
Proof.
  intros Hlim Hoff Hlen.
  assert (Hfull : forall off, 0 <= off ->
            list_ (paging None (Some off)) self
            = (Ok (map lightweight (drop (Z.to_nat off) (index self))), self)).
  { intros off Hoff'. rewrite list_run. simpl. by rewrite slice_unbounded. }
  assert (Hpage : forall lim off, 0 <= lim -> 0 <= off ->
            list_ (paging (Some lim) (Some off)) self
            = (Ok (map lightweight (take (Z.to_nat lim) (drop (Z.to_nat off) (index self)))), self)).
  { intros lim off Hlim' Hoff'. rewrite list_run. simpl. by rewrite slice_take_drop. }
  assert (Hhead : forall lim, 0 <= lim ->
            list_ (paging (Some lim) None) self
            = (Ok (map lightweight (take (Z.to_nat lim) (index self))), self)).
  { intros lim Hlim'. rewrite list_run. simpl.
    by rewrite (slice_take_drop _ 0 lim). }
  split; [by apply Hpage|]. split; [by apply Hfull|]. split; [by apply Hhead|].
  split. { rewrite list_run. simpl. by rewrite (slice_unbounded _ 0). }
  split.
  { intros Hne. rewrite Hhead by lia.
    destruct (index self) as [|d rest]; [done|]. by exists (lightweight d). }
  split.
  { eexists. split; [apply Hfull; lia|].
    rewrite length_map, length_drop. lia. }
  intros Hbeyond.
  rewrite Hpage, Hfull by done.
  rewrite drop_ge by lia. by rewrite take_nil.
Qed.

(** C7: a document that was indexed is listed.  After [index] of a
    document [d], [list] without parameters answers an array that holds
    a document with the id and the tags of [d]. *)
Theorem index_then_list (self : Executor) (d : Document) :
  Z.of_nat (length (index self)) < Py.maxsize ->
  exists listed self',
    (index_ [d] ;; list_ no_parameters) self = (Ok listed, self')
    /\ exists d', d' ∈ listed /\ id d' = id d /\ tags d' = tags d.
Proof.
  intros Hlen. unfold bind. rewrite index_run, list_run. simpl.
  rewrite (slice_unbounded _ 0); [|done|rewrite length_app; simpl; lia].
  do 2 eexists. split; [reflexivity|].
  exists (lightweight d). split; [|done].
  change (Z.to_nat 0) with 0%nat. rewrite drop_0, map_app.
  apply elem_of_app. right. apply list_elem_of_here.
Qed.

(** *** [merge_matches] *)

Lemma get_by_id_found (key : string) (docs : DocumentArray) (d : Document) :
  get_by_id key docs = Some d -> id d = key /\ d ∈ docs.
Proof.
  induction docs as [|x docs IH]; simpl; [done|].
  destruct (get_by_id key docs) as [d'|] eqn:Hrest.
  - intros [= <-]. destruct (IH eq_refl) as [? ?]. split; [done|by apply list_elem_of_further].
  - destruct (String.eqb_spec (id x) key) as [Heq|]; [|done].
    intros [= <-]. split; [done|apply list_elem_of_here].
Qed.

(** The loop invariant: the accumulators run in step, hold no id twice
    and stay below [limit] until the loop stops. *)
Lemma merge_loop_invariant (stored : DocumentArray) (limit : Z) (ms : list Document) :
  forall (parents : list Document) (parent_ids : list string) (res : list Document),
    Z.of_nat (length parents) < limit ->
    map id parents = parent_ids ->
    NoDup parent_ids ->
    Forall (fun p => chunks p = []) parents ->
    merge_loop stored limit ms parents parent_ids = Ok res ->
    Z.of_nat (length res) <= limit
    /\ NoDup (map id res)
    /\ Forall (fun p => chunks p = []) res.
Proof.
  induction ms as [|m ms IH]; intros parents parent_ids res Hlt Hids Hnd Hstrip; simpl.
  - intros [= <-]. split; [lia|]. by rewrite Hids.
  - case_bool_decide as Hseen; [by apply IH|].
    destruct (get_by_id (parent_id m) stored) as [parent|] eqn:Hget; [|done].
    apply get_by_id_found in Hget as [Hid _].
    set (parents' := parents ++ [set_chunks (deepcopy parent) []]).
    assert (Hids' : map id parents' = parent_ids ++ [parent_id m]).
    { unfold parents', deepcopy. rewrite map_app, Hids. simpl. by rewrite Hid. }
    assert (Hnd' : NoDup (parent_ids ++ [parent_id m])).
    { apply NoDup_app. split; [done|]. split; [|apply NoDup_singleton].
      intros x Hx Hx'. apply list_elem_of_singleton in Hx'. by subst x. }
    assert (Hstrip' : Forall (fun p => chunks p = []) parents').
    { unfold parents'. apply Forall_app. split; [done|]. by constructor. }
    assert (Hlen' : length parents' = S (length parents)).
    { unfold parents'. rewrite length_app. simpl. lia. }
    destruct (Z.eqb_spec (Z.of_nat (length parents')) limit) as [Hfull|Hmore].
    + intros [= <-]. split; [lia|]. split; [by rewrite Hids'|done].
    + apply IH; [lia|done..].
Qed.

Lemma rmap_Forall {A B} (f : A -> result B) (P : B -> Prop) (l : list A) (res : list B) :
  (forall x y, f x = Ok y -> P y) -> rmap f l = Ok res -> Forall P res.
Proof.
  intros Hf. revert res. induction l as [|x l IH]; simpl; intros res.
  - intros [= <-]. constructor.
  - destruct (f x) as [y|] eqn:Hx; [|done]. simpl.
    destruct (rmap f l) as [ys|]; [|done]. simpl.
    intros [= <-]. constructor; [by eapply Hf|by apply IH].
Qed.

Lemma merge_doc_deduplicated (stored : DocumentArray) (limit : Z) (d d' : Document) :
  0 < limit -> merge_doc stored limit d = Ok d' -> deduplicated limit d'.
Proof.
  intros Hpos. unfold merge_doc.
  destruct (merge_loop stored limit (matches d) [] []) as [parents|] eqn:Hloop; [|done].
  simpl. intros [= <-]. unfold deduplicated. simpl.
  eapply merge_loop_invariant; [| | | |exact Hloop]; simpl; [lia|done|constructor|constructor].
Qed.

Lemma merge_matches_run (docs : DocumentArray) (limit : Z) (self : Executor) :
  merge_matches docs limit self = (rmap (merge_doc (index self) limit) docs, self).
Proof. reflexivity. Qed.

(** The loop ends without an exception when the parent of every match
    is stored. *)
Lemma merge_loop_returns (stored : DocumentArray) (limit : Z) (ms : list Document) :
  Forall (fun m => is_Some (get_by_id (parent_id m) stored)) ms ->
  forall parents parent_ids,
    exists res, merge_loop stored limit ms parents parent_ids = Ok res.
Proof.
  induction 1 as [|m ms [parent Hparent] _ IH]; intros parents parent_ids; simpl.
  - by eexists.
  - case_bool_decide; [apply IH|]. rewrite Hparent.
    destruct (Z.of_nat _ =? limit); [by eexists|apply IH].
Qed.

Lemma merge_matches_returns (docs : DocumentArray) (limit : Z) (self : Executor) :
  Forall (fun d => Forall (fun m => is_Some (get_by_id (parent_id m) (index self)))
                     (matches d)) docs ->
  exists res, merge_matches docs limit self = (Ok res, self).
Proof.
  rewrite merge_matches_run. induction 1 as [|d docs Hd _ [res IH]]; simpl.
  - by eexists.
  - injection IH as ->. unfold merge_doc.
    destruct (merge_loop_returns (index self) limit (matches d) Hd [] []) as [ps ->].
    by eexists.
Qed.

(** C1: the deduplication invariant of chunk-level search.  Whatever
    chunk matches the query documents carry when [merge_matches] starts
    (any number of them, with any parents), for a limit [L] of at least
    1 every query document it answers has at most [L] matches and no id
    twice among them, and each of these matches has its chunks
    stripped. *)
Theorem merge_matches_dedup (self self' : Executor) (docs res : DocumentArray) (L : Z) :
  0 < L ->
  merge_matches docs L self = (Ok res, self') ->
  Forall (fun d => Z.of_nat (length (matches d)) <= L
                   /\ NoDup (map id (matches d))) res.
Proof.
  intros Hpos. rewrite merge_matches_run. intros [= Hres _].
  eapply Forall_impl; [eapply rmap_Forall; [|exact Hres]|].
  - intros d d' Hd. exact (merge_doc_deduplicated _ _ _ _ Hpos Hd).
  - intros d (Hlen & Hnd & _). by split.
Qed.

(** *** [filter_docs] and [search] over any backend *)

Section AnyBackend.
Variable QueryParser : json -> result (Document -> bool).
Variable da_match : DocumentArray -> DocumentArray -> Z -> result DocumentArray.

Lemma filter_docs_run (parameters : Parameters) (self : Executor) :
  filter_docs QueryParser parameters self =
  (try filter := adapt_filter (get (p_filter parameters) (JDict [])) in
   find QueryParser (index self) filter,
   self).
Proof.
  unfold filter_docs, bind, lift, self_index.
  by destruct (adapt_filter _).
Qed.

Lemma getitem_chunks (stored : DocumentArray) :
  getitem_path stored "@c" = Ok (flat_map chunks stored).
Proof. simpl. unfold traverse_flat. simpl. by rewrite app_nil_r. Qed.

Lemma getitem_roots (stored : DocumentArray) :
  getitem_path stored "@r" = Ok stored.
Proof. simpl. unfold traverse_flat. simpl. by rewrite app_nil_r. Qed.

(** Chunk-level search, step by step: the store is replaced by its
    chunks, the filter is resolved against them, the chunks of the
    first query document are matched with ten times the limit, and the
    answer is what [merge_matches] makes of them. *)
Lemma search_chunks_run (docs : DocumentArray) (parameters : Parameters) (self : Executor) :
  effective_paths parameters self = "@c" ->
  let limit := get (p_limit parameters) 20 in
  let self1 := mkExecutor (traversal_paths self) (flat_map chunks (index self)) in
  search QueryParser da_match docs parameters self =
  match fst (filter_docs QueryParser parameters self1) with
  | Raise e => (Raise e, self1)
  | Ok filtered_docs =>
      match docs with
      | [] => (Raise IndexError, self1)
      | first :: _ =>
          match da_match (chunks first)
                  (match filtered_docs with Self => index self1 | Fresh l => l end)
                  (limit * 10) with
          | Raise e => (Raise e, self1)
          | Ok matched => merge_matches matched limit self1
          end
      end
  end.
Proof.
  unfold effective_paths. intros Hpaths. simpl.
  unfold search, bind, lift, self_traversal_paths, self_index, set_self_index.
  rewrite Hpaths, getitem_chunks. simpl.
  rewrite filter_docs_run. simpl.
  destruct (try filter := adapt_filter _ in find QueryParser _ filter) as [filtered|e]; [|done].
  destruct docs as [|first rest]; [done|].
  unfold ret, resolve.
  destruct filtered as [|l]; unfold self_index, ret; simpl;
    by destruct (da_match _ _ _).
Qed.

(** C10: chunk-level search matches the first query document only, and
    through its chunks.  Under the traversal path [@c], once the filter
    is resolved, it is the chunks of the first query document that are
    handed to the match, against the filtered candidates and with ten
    times the limit, and the answer is what [merge_matches] makes of
    these matched chunks.  The query documents after the first occur
    nowhere in the run: the request goes as if the first document had
    been sent alone. *)
Theorem search_chunks_first_only
    (first : Document) (rest : DocumentArray) (parameters : Parameters) (self : Executor) :
  effective_paths parameters self = "@c" ->
  let limit := get (p_limit parameters) 20 in
  let self1 := mkExecutor (traversal_paths self) (flat_map chunks (index self)) in
  search QueryParser da_match (first :: rest) parameters self
  = match fst (filter_docs QueryParser parameters self1) with
    | Raise e => (Raise e, self1)
    | Ok filtered_docs =>
        match da_match (chunks first)
                (match filtered_docs with Self => index self1 | Fresh l => l end)
                (limit * 10) with
        | Raise e => (Raise e, self1)
        | Ok matched => merge_matches matched limit self1
        end
    end
  /\ search QueryParser da_match (first :: rest) parameters self
     = search QueryParser da_match [first] parameters self.
Proof.
  intros Hpaths. split.
  - by rewrite search_chunks_run.
  - by rewrite !search_chunks_run.
Qed.

(** Whatever a chunk-level search answers, it comes from
    [merge_matches]; so the answer is deduplicated. *)
Lemma search_chunks_deduplicated
    (docs res : DocumentArray) (parameters : Parameters) (self self' : Executor) :
  effective_paths parameters self = "@c" ->
  0 < get (p_limit parameters) 20 ->
  search QueryParser da_match docs parameters self = (Ok res, self') ->
  Forall (deduplicated (get (p_limit parameters) 20)) res.
Proof.
  intros Hpaths Hpos. rewrite search_chunks_run by done. simpl.
  destruct (fst (filter_docs _ _ _)) as [filtered|]; [|done].
  destruct docs as [|first rest]; [done|].
  destruct (da_match _ _ _) as [matched|]; [|done].
  rewrite merge_matches_run. intros [= Hres _].
  eapply rmap_Forall; [|exact Hres].
  intros d d' Hd. by eapply merge_doc_deduplicated.
Qed.

(** After a chunk-level search, finished or failed, the executor
    holds the chunks in place of the documents. *)
Lemma search_chunks_store (docs : DocumentArray) (parameters : Parameters) (self : Executor) :
  effective_paths parameters self = "@c" ->
  snd (search QueryParser da_match docs parameters self)
  = mkExecutor (traversal_paths self) (flat_map chunks (index self)).
Proof.
  intros Hpaths. rewrite search_chunks_run by done. simpl.
  destruct (fst (filter_docs _ _ _)) as [filtered|]; [|done].
  destruct docs as [|first rest]; [done|].
  by destruct (da_match _ _ _).
Qed.

(** Root-level search leaves the executor as it was. *)
Lemma search_roots_store (docs : DocumentArray) (parameters : Parameters) (self : Executor) :
  effective_paths parameters self = "@r" ->
  snd (search QueryParser da_match docs parameters self) = self.
Proof.
  unfold effective_paths. intros Hpaths.
  unfold search, bind, lift, self_traversal_paths, self_index, set_self_index.
  rewrite Hpaths, getitem_roots. simpl.
  rewrite filter_docs_run. simpl. destruct self as [tp stored]. simpl.
  destruct (try filter := adapt_filter _ in find QueryParser _ filter) as [filtered|e]; [|done].
  unfold ret, resolve.
  destruct filtered as [|l]; unfold self_index, ret; simpl;
    by destruct (da_match _ _ _).
Qed.

(** The sibling endpoint [filter] selects by path without storing the
    selection. *)
Lemma filter_store (parameters : Parameters) (self : Executor) :
  snd (filter_ QueryParser parameters self) = self.
Proof.
  unfold filter_, bind, lift, self_traversal_paths, self_index. simpl.
  destruct (getitem_path _ _) as [selected|]; [|done]. simpl.
  destruct (find _ _ _) as [[|l]|]; done.
Qed.

End AnyBackend.

(** *** [delete] *)

Lemma remove_first (doc : Document) (kept rest : DocumentArray) :
  doc ∉ kept -> remove doc (kept ++ doc :: rest) = Ok (kept ++ rest).
Proof.
  induction kept as [|k kept IH]; simpl; intros Hnot.
  - by rewrite bool_decide_eq_true_2.
  - apply not_elem_of_cons in Hnot as [Hne Hnot].
    rewrite bool_decide_eq_false_2 by congruence.
    by rewrite IH.
Qed.

Lemma remove_from_index_run (doc : Document) (self : Executor) :
  remove_from_index doc self =
  match remove doc (index self) with
  | Ok stored => (Ok tt, mkExecutor (traversal_paths self) stored)
  | Raise e => (Raise e, self)
  end.
Proof.
  unfold remove_from_index, bind, lift, self_index, set_self_index. simpl.
  by destruct (remove doc (index self)).
Qed.

(** Removing, one after the other, the documents a predicate selects
    leaves the others in their order. *)
Lemma remove_selected (check : Document -> bool) (paths : string) (rest : DocumentArray) :
  forall kept : DocumentArray,
    Forall (fun d => check d = false) kept ->
    for_each remove_from_index (List.filter check rest) (mkExecutor paths (kept ++ rest))
    = (Ok tt, mkExecutor paths (kept ++ List.filter (fun d => negb (check d)) rest)).
Proof.
  induction rest as [|x rest IH]; intros kept Hkept; simpl; [done|].
  destruct (check x) eqn:Hx; simpl.
  - unfold bind. rewrite remove_from_index_run. simpl.
    rewrite remove_first.
    + by apply IH.
    + intros Hin. rewrite Forall_forall in Hkept. apply Hkept in Hin. congruence.
  - rewrite (cons_middle x kept rest), app_assoc. rewrite IH.
    + by rewrite <- app_assoc.
    + apply Forall_app. split; [done|]. by constructor.
Qed.

Lemma filter_none {A} (check : A -> bool) (l : list A) :
  Forall (fun d => check d = false) l -> List.filter (fun d => negb (check d)) l = l.
Proof.
  induction 1 as [|x l Hx _ IH]; simpl; [done|]. by rewrite Hx, IH.
Qed.

(** The position-wise loop never runs short of steps: any two budgets
    that cover the rest of the array give the same run. *)
Lemma remove_while_iterating_budget (fuel1 : nat) :
  forall (fuel2 position : nat) (self : Executor),
    (length (index self) <= position + fuel1)%nat ->
    (length (index self) <= position + fuel2)%nat ->
    remove_while_iterating fuel1 position self = remove_while_iterating fuel2 position self.
Proof.
  induction fuel1 as [|fuel1 IH]; intros fuel2 position self H1 H2.
  - destruct fuel2 as [|fuel2]; [done|]. unfold remove_while_iterating, bind, self_index.
    by rewrite lookup_ge_None_2 by lia.
  - destruct fuel2 as [|fuel2]; simpl; unfold bind, self_index; simpl.
    + by rewrite lookup_ge_None_2 by lia.
    + destruct (index self !! position) as [doc|] eqn:Hdoc; [|done].
      rewrite remove_from_index_run.
      apply list_elem_of_split_length in Hdoc as (before & after & Hsplit & Hlen).
      destruct (remove doc (index self)) as [stored|] eqn:Hrem; [|done].
      assert (Hshrink : S (length stored) = length (index self)).
      { clear -Hrem. revert stored Hrem.
        induction (index self) as [|d l IHl]; simpl; intros stored; [done|].
        case_bool_decide; [by intros [= ->]|].
        destruct (remove doc l) as [r|]; [|done]. simpl.
        intros [= <-]. simpl. by rewrite (IHl r). }
      apply IH; simpl; lia.
Qed.

Section DeleteAnyBackend.
Variable QueryParser : json -> result (Document -> bool).

(** C4, as amended: [delete] selects by the filter and by nothing else.
    For a request whose filter the rewrite turns into a non-empty
    filter that the backend accepts, exactly the stored documents
    satisfying it are removed and the others stay in their order; when
    no stored document satisfies it the store is left as it is and no
    exception is raised; and the [ids] of the request make no
    difference. *)
Theorem delete_by_filter
    (self : Executor) (filter filter' : json) (check : Document -> bool)
    (ids : option (list string)) :
  adapt_filter filter = Ok filter' ->
  filter' <> JDict [] ->
  QueryParser filter' = Ok check ->
  delete QueryParser (filtering filter ids) self
  = (Ok [], mkExecutor (traversal_paths self)
              (List.filter (fun d => negb (check d)) (index self)))
  /\ (Forall (fun d => check d = false) (index self) ->
      delete QueryParser (filtering filter ids) self = (Ok [], self))
  /\ (forall ids', delete QueryParser (filtering filter ids') self
                   = delete QueryParser (filtering filter ids) self).
Proof.
  intros Hadapt Hnonempty Hparse.
  assert (Hrun : delete QueryParser (filtering filter ids) self
    = (Ok [], mkExecutor (traversal_paths self)
                 (List.filter (fun d => negb (check d)) (index self)))).
  { unfold delete, bind. rewrite filter_docs_run. simpl. rewrite Hadapt. simpl.
    assert (Hfind : find QueryParser (index self) filter'
                    = Ok (Fresh (List.filter check (index self)))).
    { unfold find. rewrite Hparse. simpl.
      destruct filter' as [| |[|]]; congruence. }
    rewrite Hfind. destruct self as [paths stored]. simpl.
    pose proof (remove_selected check paths stored [] (Forall_nil_2 _)) as Hloop.
    simpl in Hloop. by rewrite Hloop. }
  split; [exact Hrun|]. split; [|done].
  intros Hnone. rewrite Hrun, filter_none by done. by destruct self.
Qed.

End DeleteAnyBackend.

(** *** The filter rewrite *)

Lemma length_append (s1 s2 : string) :
  String.length (s1 +:+ s2) = (String.length s1 + String.length s2)%nat.
Proof. induction s1 as [|c s1 IH]; simpl; [done|]. by rewrite IH. Qed.

Lemma prefixed_differs (tag : string) : String.eqb ("tags__" +:+ tag) tag = false.
Proof.
  apply String.eqb_neq. intros Heq.
  apply (f_equal String.length) in Heq. rewrite length_append in Heq. simpl in Heq. lia.
Qed.

Lemma adapt_leaf (query : json) :
  leaf_predicate query = true -> adapt_query query = Ok (prefix_leaf query).
Proof.
  destruct query as [| |[|[tag condition] [|]]]; try done.
  intros _. unfold adapt_query, prefix_leaf.
  cbn [Py.dict_set]. rewrite prefixed_differs.
  cbn [Py.dict_del Py.dict_set]. by rewrite String.eqb_refl.
Qed.

Lemma adapt_leaves (queries : list json) :
  forallb leaf_predicate queries = true ->
  rmap adapt_query queries = Ok (map prefix_leaf queries).
Proof.
  induction queries as [|q queries IH]; simpl; [done|].
  intros [Hq Hrest]%andb_prop. by rewrite (adapt_leaf q Hq), IH.
Qed.

Lemma adapt_keyed (queries : list json) :
  forallb keyed_dict queries = true ->
  rmap adapt_query queries = Ok (map prefix_first_key queries).
Proof.
  induction queries as [|q queries IH]; simpl; [done|].
  intros [Hq Hrest]%andb_prop. rewrite IH by done.
  by destruct q as [| |[|[tag value] more]].
Qed.

Section FilterAnyBackend.
Variable QueryParser : json -> result (Document -> bool).

(** C9: the translation of a supported filter.  For a filter that is
    one top-level [$and] over single-key, single-operator leaf
    predicates, the rewrite succeeds and gives the same filter with
    every leaf's key prefixed by [tags__] and every operator and value
    as they were; this translated filter is the one applied to the
    stored documents. *)
Theorem filter_translation (self : Executor) (filter : json) (ids : option (list string)) :
  supported_shape filter = true ->
  adapt_filter filter = Ok (translate filter)
  /\ filter_docs QueryParser (filtering filter ids) self
     = (find QueryParser (index self) (translate filter), self).
Proof.
  intros Hshape.
  assert (Hadapt : adapt_filter filter = Ok (translate filter)).
  { destruct filter as [| |[|[key [| queries |]] [|]]]; try done.
    simpl in Hshape. apply andb_prop in Hshape as [Hkey Hleaves].
    apply String.eqb_eq in Hkey. subst key. simpl.
    by rewrite (adapt_leaves queries Hleaves). }
  split; [done|]. rewrite filter_docs_run. simpl. by rewrite Hadapt.
Qed.

(** C5, as amended: the shape of a filter is not checked.  A filter
    dict without a top-level [$and] reaches the backend's [find] as it
    is, and one whose [$and] is a list of dicts with at least one key
    each reaches it with the first key of every item prefixed by
    [tags__], further keys of an item untouched; the rewrite raises
    nothing on such filters and the outcome of the request is the
    backend's. *)
Theorem filter_shape_unchecked
    (self : Executor) (entries : list (string * json)) (ids : option (list string)) :
  itemised entries = true ->
  adapt_filter (JDict entries) = Ok (rewritten entries)
  /\ filter_docs QueryParser (filtering (JDict entries) ids) self
     = (find QueryParser (index self) (rewritten entries), self).
Proof.
  unfold itemised, rewritten. intros Hitems.
  assert (Hadapt : adapt_filter (JDict entries) = Ok
            match Py.dict_get "$and" entries with
            | Some (JList queries) =>
                JDict (Py.dict_set "$and" (JList (map prefix_first_key queries)) entries)
            | _ => JDict entries
            end).
  { simpl. destruct (Py.dict_get "$and" entries) as [[| queries |]|]; try done.
    by rewrite (adapt_keyed queries Hitems). }
  split; [done|]. rewrite filter_docs_run.
  change (get (p_filter (filtering (JDict entries) ids)) (JDict [])) with (JDict entries).
  by rewrite Hadapt.
Qed.

End FilterAnyBackend.

(** *** The endpoints on the sample data *)

(** C3, as stated, fails: indexing a second version of a stored id adds
    an entry.  After [index] of [r1_again] the store holds the old [r1],
    with its chunks and its tag, and the new version: two documents
    with the id [r1], not one. *)
Lemma reindex_keeps_both_versions :
  let self' := snd (index_ [Sample.r1_again] Sample.store) in
  index self' = [Sample.r1; Sample.r2; Sample.r1_again]
  /\ count_id "r1" (index self') = 2%nat
  /\ ~ count_id "r1" (index self') = 1%nat.
Proof. repeat split. vm_compute. discriminate. Qed.

(** C4, as stated, fails: a request with [ids] only has no filter, and
    the empty filter selects the whole store.  Deleting an id that no
    stored document has is not a no-op: it removes [r1]. *)
Lemma delete_by_ids_removes_others :
  delete InMemory.QueryParser
    (mkParameters None None None None (Some ["no-such-id"]))
    (mkExecutor "@r" [Sample.r1])
  = (Ok [], mkExecutor "@r" []).
Proof. reflexivity. Qed.

(** The loop of [delete] over the live store: with two stored documents
    and no filter the second one is never visited. *)
Example delete_without_filter_skips :
  delete InMemory.QueryParser no_parameters Sample.store
  = (Ok [], mkExecutor "@r" [Sample.r2]).
Proof. reflexivity. Qed.

(** C5, as stated, fails: a filter that is a bare leaf, without [$and],
    is accepted, and [delete] removes the document it selects; and an
    item with two keys is translated in its first key only. *)
Lemma unsupported_filter_accepted :
  supported_shape Sample.bare_leaf = false
  /\ delete InMemory.QueryParser (filtering Sample.bare_leaf None) Sample.store
     = (Ok [], mkExecutor "@r" [Sample.r2])
  /\ supported_shape (JDict Sample.two_keys) = false
  /\ adapt_filter (JDict Sample.two_keys)
     = Ok (JDict [("$and",
             JList [JDict [("size", JDict [("$eq", JAtom (SNum 1))]);
                           ("tags__color", JDict [("$eq", Sample.atom "red")])]])]).
Proof. repeat split. Qed.

(** A leaf with an operator the backend does not know is translated
    like any other and then rejected by the backend's parser. *)
Example unknown_operator_rejected_by_backend :
  let filter := JDict [("$and", JList [JDict [("color", JDict [("$like", Sample.atom "red")])]])] in
  adapt_filter filter
  = Ok (JDict [("$and", JList [JDict [("tags__color", JDict [("$like", Sample.atom "red")])]])])
  /\ delete InMemory.QueryParser (filtering filter None) Sample.store
     = (Raise ValueError, Sample.store).
Proof. by split. Qed.

(** C2: a chunk-level search replaces the stored documents by their
    chunks.  On the sample store, a search under [@c] for a query
    without chunks answers nothing and leaves the three chunks where
    the two documents were, so that [list] then answers the chunks; for
    a query with a chunk, the lookup of the matched chunk's parent in
    that store raises [KeyError]. *)
Theorem search_chunks_replaces_store :
  search InMemory.QueryParser InMemory.da_match [Sample.bare_query]
    Sample.chunk_level Sample.store
  = (Ok [], mkExecutor "@r" [Sample.c1; Sample.c2; Sample.c3])
  /\ (search InMemory.QueryParser InMemory.da_match [Sample.bare_query] Sample.chunk_level ;;
      list_ no_parameters) Sample.store
     = (Ok (map lightweight [Sample.c1; Sample.c2; Sample.c3]),
        mkExecutor "@r" [Sample.c1; Sample.c2; Sample.c3])
  /\ search InMemory.QueryParser InMemory.da_match [Sample.query]
       Sample.chunk_level Sample.store
     = (Raise KeyError, mkExecutor "@r" [Sample.c1; Sample.c2; Sample.c3]).
Proof. repeat split. Qed.

(** C8: the mapping of the test configuration.  For [clip] of
    dimension 8 over [title] and [sbert] of dimension 5 over [title]
    and [excerpt] with the cosine metric, the generated schema is the
    expected one: the keyword [id], the analyzed [bm25_text], and the
    vector fields [title-clip], [title-sbert], [excerpt-sbert] with the
    dims ["8"], ["5"], ["5"] as strings, and nothing else. *)
Theorem generate_es_mapping_scenario :
  NOWElasticIndexer.generate_es_mapping Sample.document_mappings "cosine"
  = NOWElasticIndexer.Schema Sample.expected_mapping.
Proof. vm_compute. reflexivity. Qed.

(** *** Instances *)

(** [merge_matches] with limit 2 on a query chunk that matched three
    chunks of two parents. *)
Lemma merge_matches_dedup_witness :
  0 < 2
  /\ merge_matches [Sample.matched_chunk] 2 Sample.store
     = (Ok [set_matches Sample.query_chunk
              [set_chunks Sample.r1 []; set_chunks Sample.r2 []]], Sample.store)
  /\ Forall (fun d => Z.of_nat (length (matches d)) <= 2
                      /\ NoDup (map id (matches d)))
       [set_matches Sample.query_chunk [set_chunks Sample.r1 []; set_chunks Sample.r2 []]].
Proof.
  split; [lia|]. split; [reflexivity|].
  apply (merge_matches_dedup Sample.store Sample.store [Sample.matched_chunk] _ 2);
    [lia | reflexivity].
Defined.

(** [list] with limit 1 and offset 1 on the sample store. *)
Lemma list_pagination_witness :
  0 <= 1 /\ 0 <= 1
  /\ Z.of_nat (length (index Sample.store)) <= Py.maxsize
  /\ list_ (paging (Some 1) (Some 1)) Sample.store = (Ok [lightweight Sample.r2], Sample.store).
Proof.
  split; [lia|]. split; [lia|]. split; [vm_compute; discriminate|].
  apply (list_pagination Sample.store 1 1); [lia | lia | vm_compute; discriminate].
Defined.

(** Indexing [r1_again] into the sample store and listing. *)
Lemma index_then_list_witness :
  Z.of_nat (length (index Sample.store)) < Py.maxsize
  /\ exists listed self',
       (index_ [Sample.r1_again] ;; list_ no_parameters) Sample.store = (Ok listed, self')
       /\ exists d', d' ∈ listed /\ id d' = "r1" /\ tags d' = [("color", SStr "green")].
Proof.
  split; [vm_compute; reflexivity|].
  apply (index_then_list Sample.store Sample.r1_again). vm_compute. reflexivity.
Defined.

(** A chunk-level search with two query documents, on a store whose
    document has a chunk of its own id, so that the parent lookup finds
    it among the chunks: the chunk of the first query document is
    answered with one match for its two matched chunks, and the second
    query document is not answered. *)
Lemma search_chunks_first_only_witness :
  let pa := mkDocument "p" "p" "" [] [] [] in
  let pb := mkDocument "p2" "p" "" [] [] [] in
  let self := mkExecutor "@r" [mkDocument "p" "" "u" [] [pa; pb] []] in
  let second := mkDocument "q2" "" "" [] [mkDocument "q2c" "q2" "" [] [] []] [] in
  effective_paths Sample.chunk_level self = "@c"
  /\ search InMemory.QueryParser InMemory.da_match
       [Sample.query; second] Sample.chunk_level self
     = (Ok [set_matches Sample.query_chunk [pa]], mkExecutor "@r" [pa; pb])
  /\ search InMemory.QueryParser InMemory.da_match
       [Sample.query; second] Sample.chunk_level self
     = search InMemory.QueryParser InMemory.da_match
         [Sample.query] Sample.chunk_level self.
Proof.
  intros pa pb self second.
  pose proof (search_chunks_first_only InMemory.QueryParser InMemory.da_match
                Sample.query [second] Sample.chunk_level self eq_refl) as [Hrun Hsame].
  split; [reflexivity|]. split; [|exact Hsame].
  etransitivity; [exact Hrun|reflexivity].
Defined.

(** Deleting the red documents, with an [ids] list naming [r2]. *)
Lemma delete_by_filter_witness :
  exists check,
    adapt_filter Sample.and_color = Ok (translate Sample.and_color)
    /\ translate Sample.and_color <> JDict []
    /\ InMemory.QueryParser (translate Sample.and_color) = Ok check
    /\ List.filter (fun d => negb (check d)) (index Sample.store) = [Sample.r2]
    /\ delete InMemory.QueryParser (filtering Sample.and_color (Some ["r2"])) Sample.store
       = (Ok [], mkExecutor "@r" (List.filter (fun d => negb (check d)) (index Sample.store))).
Proof.
  eexists.
  split; [reflexivity|]. split; [discriminate|]. split; [reflexivity|].
  split; [reflexivity|].
  apply (delete_by_filter InMemory.QueryParser Sample.store Sample.and_color
           (translate Sample.and_color));
    [reflexivity | discriminate | reflexivity].
Defined.

(** The translation of [{'$and': [{'color': {'$eq': 'red'}}]}]. *)
Lemma filter_translation_witness :
  supported_shape Sample.and_color = true
  /\ adapt_filter Sample.and_color
     = Ok (JDict [("$and",
             JList [JDict [("tags__color", JDict [("$eq", Sample.atom "red")])]])]).
Proof.
  split; [reflexivity|].
  apply (filter_translation InMemory.QueryParser Sample.store Sample.and_color None).
  reflexivity.
Defined.

(** The rewrite of a filter whose item has two keys. *)
Lemma filter_shape_unchecked_witness :
  itemised Sample.two_keys = true
  /\ adapt_filter (JDict Sample.two_keys) = Ok (rewritten Sample.two_keys).
Proof.
  split; [reflexivity|].
  apply (filter_shape_unchecked InMemory.QueryParser Sample.store Sample.two_keys None).
  reflexivity.
Defined.

(** ** More about the endpoints *)

(** *** [search] and [filter] *)

Lemma find_nonempty (QueryParser : json -> result (Document -> bool))
    (docs : DocumentArray) (filter : json) (check : Document -> bool) :
  filter <> JDict [] -> QueryParser filter = Ok check ->
  find QueryParser docs filter = Ok (Fresh (List.filter check docs)).
Proof.
  intros Hne Hparse. unfold find. rewrite Hparse. simpl.
  destruct filter as [| |[|]]; congruence.
Qed.

Lemma search_roots_run
    (QueryParser : json -> result (Document -> bool))
    (da_match : DocumentArray -> DocumentArray -> Z -> result DocumentArray)
    (docs : DocumentArray) (parameters : Parameters) (self : Executor) :
  effective_paths parameters self = "@r" ->
  search QueryParser da_match docs parameters self =
  match fst (filter_docs QueryParser parameters self) with
  | Raise e => (Raise e, self)
  | Ok filtered_docs =>
      (da_match docs
         (match filtered_docs with Self => index self | Fresh l => l end)
         (get (p_limit parameters) 20),
       self)
  end.
Proof.
  unfold effective_paths. intros Hpaths.
  unfold search, bind, lift, self_traversal_paths, self_index, set_self_index.
  rewrite Hpaths, getitem_roots. simpl.
  rewrite !filter_docs_run. simpl. destruct self as [tp stored]. simpl.
  destruct (try filter := adapt_filter _ in find QueryParser _ filter) as [filtered|e]; [|done].
  unfold ret, resolve.
  destruct filtered as [|l]; unfold self_index, ret; simpl;
    by destruct (da_match _ _ _).
Qed.

Section SearchAnyBackend.
Variable QueryParser : json -> result (Document -> bool).
Variable da_match : DocumentArray -> DocumentArray -> Z -> result DocumentArray.

(** X1: a root-level search without a filter.  Under the path [@r] and
    with no filter (or the empty one) the query documents are matched
    against the whole store with the requested limit, 20 when none is
    given; the answer is the backend's, and the executor is left as it
    was. *)
Theorem search_roots_without_filter
    (docs : DocumentArray) (parameters : Parameters) (self : Executor) :
  effective_paths parameters self = "@r" ->
  get (p_filter parameters) (JDict []) = JDict [] ->
  search QueryParser da_match docs parameters self
  = (da_match docs (index self) (get (p_limit parameters) 20), self).
Proof.
  intros Hpaths Hfilter. rewrite search_roots_run by done.
  rewrite filter_docs_run, Hfilter. done.
Qed.

(** X2: a root-level search with a filter.  When the rewrite of the
    filter gives a non-empty filter that the backend accepts, the
    candidates handed to the match are exactly the stored documents
    satisfying it, in stored order, and the executor is left as it
    was. *)
Theorem search_roots_with_filter
    (docs : DocumentArray) (parameters : Parameters) (self : Executor)
    (filter' : json) (check : Document -> bool) :
  effective_paths parameters self = "@r" ->
  adapt_filter (get (p_filter parameters) (JDict [])) = Ok filter' ->
  filter' <> JDict [] ->
  QueryParser filter' = Ok check ->
  search QueryParser da_match docs parameters self
  = (da_match docs (List.filter check (index self)) (get (p_limit parameters) 20), self).
Proof.
  intros Hpaths Hadapt Hne Hparse. rewrite search_roots_run by done.
  rewrite filter_docs_run, Hadapt. simpl.
  by rewrite (find_nonempty _ _ _ check).
Qed.

(** X3: a chunk-level search without query documents.  Under [@c] an
    empty batch is never answered: the request raises, [IndexError]
    from [docs[0]] unless the filter was refused before, and by then
    the store already holds the chunks in place of the documents. *)
Theorem search_chunks_without_documents (parameters : Parameters) (self : Executor) :
  effective_paths parameters self = "@c" ->
  let self1 := mkExecutor (traversal_paths self) (flat_map chunks (index self)) in
  search QueryParser da_match [] parameters self
  = (match fst (filter_docs QueryParser parameters self1) with
     | Raise e => Raise e
     | Ok _ => Raise IndexError
     end, self1).
Proof.
  intros Hpaths. rewrite search_chunks_run by done. simpl.
  by destruct (fst (filter_docs _ _ _)).
Qed.

(** X4: the [filter] endpoint under the paths [@r] and [@c].  It
    answers the stored documents under [@r] and their chunks under
    [@c], all of them without a condition and otherwise those
    satisfying the condition exactly as it was sent, with no key moved
    into the tag namespace; it never writes the store. *)
Theorem filter_applies_condition (parameters : Parameters) (self : Executor) :
  let path := effective_paths parameters self in
  path = "@r" \/ path = "@c" ->
  let selected :=
    if String.eqb path "@c" then flat_map chunks (index self) else index self in
  (get (p_filter parameters) (JDict []) = JDict [] ->
   filter_ QueryParser parameters self = (Ok selected, self))
  /\ (forall condition check,
        get (p_filter parameters) (JDict []) = condition ->
        condition <> JDict [] ->
        QueryParser condition = Ok check ->
        filter_ QueryParser parameters self = (Ok (List.filter check selected), self)).
Proof.
  intros path Hpath selected.
  assert (Hsel : getitem_path (index self) (effective_paths parameters self) = Ok selected).
  { subst selected path. destruct Hpath as [-> | ->]; simpl String.eqb; cbv iota.
    - apply getitem_roots.
    - apply getitem_chunks. }
  unfold effective_paths in Hsel.
  unfold filter_, bind, lift, self_traversal_paths, self_index. simpl.
  rewrite Hsel. simpl. split.
  - intros ->. done.
  - intros condition check -> Hne Hparse.
    by rewrite (find_nonempty _ _ _ check).
Qed.

End SearchAnyBackend.

(** *** [merge_matches], outcome *)

(** The loop, whatever the data: it looks up the next distinct parent
    ids until it has [limit] parents, answers their stripped copies in
    that order, and raises [KeyError] if one of them is not stored. *)
Lemma merge_loop_outcome (stored : DocumentArray) (limit : Z) (ms : list Document) :
  forall (parents : list Document) (parent_ids : list string),
    Z.of_nat (length parents) < limit ->
    merge_loop stored limit ms parents parent_ids =
    let keys := take (Z.to_nat limit - length parents)
                  (first_occurrences parent_ids (map parent_id ms)) in
    if forallb (stored_key stored) keys
    then Ok (parents ++ stripped_parents stored keys)
    else Raise KeyError.
Proof.
  induction ms as [|m ms IH]; intros parents parent_ids Hlt; simpl.
  - rewrite take_nil. simpl. by rewrite app_nil_r.
  - case_bool_decide as Hseen; [by apply IH|].
    assert (Hroom : (Z.to_nat limit - length parents
                     = S (Z.to_nat limit - S (length parents)))%nat) by lia.
    rewrite Hroom. simpl. unfold stored_key at 1, stripped_parents. simpl.
    destruct (get_by_id (parent_id m) stored) as [parent|] eqn:Hget; simpl; [|done].
    assert (Hlen : length (parents ++ [set_chunks (deepcopy parent) []])
                   = S (length parents)) by (rewrite length_app; simpl; lia).
    destruct (Z.eqb_spec (Z.of_nat (length (parents ++ [set_chunks (deepcopy parent) []])))
                limit) as [Hfull|Hmore].
    + replace (Z.to_nat limit - S (length parents))%nat with 0%nat by lia.
      by rewrite take_0.
    + rewrite IH by lia. rewrite Hlen. simpl.
      destruct (forallb _ _); [|done].
      by rewrite <- app_assoc.
Qed.

Lemma merge_doc_outcome (stored : DocumentArray) (limit : Z) (d : Document) :
  0 < limit ->
  merge_doc stored limit d =
  if forallb (stored_key stored) (wanted_parents limit d)
  then Ok (set_matches d (stripped_parents stored (wanted_parents limit d)))
  else Raise KeyError.
Proof.
  intros Hpos. unfold merge_doc, wanted_parents.
  rewrite merge_loop_outcome by (simpl; lia). simpl.
  rewrite Nat.sub_0_r. by destruct (forallb _ _).
Qed.

(** X5: what [merge_matches] answers.  For a limit of at least 1, when
    the first [limit] distinct parent ids among each query document's
    matches are all stored, every query document comes back with, as
    its matches, the stored documents of exactly those ids, in the order
    in which the ids first occur among the chunk matches and with the
    chunks taken off; the executor is not written. *)
Theorem merge_matches_first_parents (docs : DocumentArray) (L : Z) (self : Executor) :
  0 < L ->
  Forall (fun d => forallb (stored_key (index self)) (wanted_parents L d) = true) docs ->
  merge_matches docs L self
  = (Ok (map (fun d => set_matches d
                         (stripped_parents (index self) (wanted_parents L d))) docs),
     self).
Proof.
  intros Hpos Hall. rewrite merge_matches_run. f_equal.
  induction Hall as [|d docs Hd _ IH]; simpl; [done|].
  by rewrite merge_doc_outcome, Hd, IH.
Qed.

(** X6: the missing parent.  For a limit of at least 1, when for some
    query document one of the first [limit] distinct parent ids among
    its matches is not stored, [merge_matches] raises [KeyError] and no
    query document is answered. *)
Theorem merge_matches_missing_parent (docs : DocumentArray) (L : Z) (self : Executor) :
  0 < L ->
  Exists (fun d => forallb (stored_key (index self)) (wanted_parents L d) = false) docs ->
  merge_matches docs L self = (Raise KeyError, self).
Proof.
  intros Hpos Hsome. rewrite merge_matches_run. f_equal.
  induction Hsome as [d docs Hd|d docs _ IH]; simpl.
  - by rewrite merge_doc_outcome, Hd.
  - rewrite merge_doc_outcome by done.
    destruct (forallb _ (wanted_parents L d)); [|done]. simpl. by rewrite IH.
Qed.

(** *** [index] and [list], further *)

Lemma executor_eta (self : Executor) :
  mkExecutor (traversal_paths self) (index self) = self.
Proof. by destruct self. Qed.

(** X7: batches keep their order.  Indexing one batch and then another
    leaves the executor as indexing the two batches as one does, an
    empty batch changes nothing, and [list] without parameters then
    answers the lightweight copies of the documents stored before,
    followed by those of the first and of the second batch. *)
Theorem index_batches (first second : DocumentArray) (self : Executor) :
  Z.of_nat (length (index self ++ first ++ second)) <= Py.maxsize ->
  (index_ first ;; index_ second) self = index_ (first ++ second) self
  /\ index_ [] self = (Ok [], self)
  /\ (index_ first ;; index_ second ;; list_ no_parameters) self
     = (Ok (map lightweight (index self ++ first ++ second)),
        mkExecutor (traversal_paths self) (index self ++ first ++ second)).
Proof.
  intros Hlen. split; [|split].
  - unfold bind. rewrite !index_run. simpl. by rewrite app_assoc.
  - rewrite index_run, app_nil_r. by rewrite executor_eta.
  - unfold bind. rewrite !index_run, list_run. simpl.
    rewrite <- app_assoc. by rewrite (slice_unbounded _ 0).
Qed.

Lemma slice_from_end {A} (l : list A) (k stop : Z) :
  0 < k -> k <= Z.of_nat (length l) -> Z.of_nat (length l) <= stop ->
  Py.slice l (- k) stop = drop (length l - Z.to_nat k) l.
Proof.
  intros Hpos Hk Hstop. unfold Py.slice, Py.clamp.
  destruct (Z.ltb_spec (- k) 0) as [_|?]; [|lia].
  destruct (Z.ltb_spec stop 0) as [?|_]; [lia|].
  rewrite Z.max_r, Z.min_r by lia.
  replace (Z.to_nat (- k + Z.of_nat (length l))) with (length l - Z.to_nat k)%nat by lia.
  apply take_ge. rewrite length_drop. lia.
Qed.

Lemma slice_until_end {A} (l : list A) (k : Z) :
  0 < k -> k <= Z.of_nat (length l) ->
  Py.slice l 0 (- k) = take (length l - Z.to_nat k) l.
Proof.
  intros Hpos Hk. unfold Py.slice, Py.clamp.
  destruct (Z.ltb_spec 0 0) as [?|_]; [lia|].
  destruct (Z.ltb_spec (- k) 0) as [_|?]; [|lia].
  rewrite Z.max_r, Z.min_l by lia.
  change (Z.to_nat 0) with 0%nat. rewrite drop_0. f_equal. lia.
Qed.

(** X8: negative bounds of [list] count from the end.  With [N] stored
    documents and [1 <= k <= N], an offset of [-k] without a limit
    answers the last [k] documents, and a limit of [-k] without an
    offset answers all but the last [k]; neither raises. *)
Theorem list_negative_bounds (self : Executor) (k : Z) :
  0 < k ->
  k <= Z.of_nat (length (index self)) ->
  Z.of_nat (length (index self)) + k <= Py.maxsize ->
  list_ (paging None (Some (- k))) self
    = (Ok (map lightweight (drop (length (index self) - Z.to_nat k) (index self))), self)
  /\ list_ (paging (Some (- k)) None) self
    = (Ok (map lightweight (take (length (index self) - Z.to_nat k) (index self))), self).
Proof.
  intros Hpos Hk Hmax. rewrite !list_run.
  unfold paging, get, p_offset, p_limit. rewrite Z.add_0_l.
  rewrite slice_from_end by lia. by rewrite slice_until_end.
Qed.

Lemma slice_segment {A} (l : list A) (start stop : Z) :
  exists before after, l = before ++ Py.slice l start stop ++ after.
Proof.
  unfold Py.slice.
  set (n := Z.to_nat _). set (a := Z.to_nat _).
  exists (take a l), (drop n (drop a l)).
  by rewrite (take_drop n (drop a l)), take_drop.
Qed.

(** X9: [list] for any parameters.  Whatever [limit] and [offset] are,
    negative or not, [list] raises nothing and leaves the executor as
    it was; its answer is the lightweight copies of one contiguous run
    of the stored documents, in stored order, and no listed document
    carries chunks, matches or a parent id. *)
Theorem list_answers_a_run (parameters : Parameters) (self : Executor) :
  exists before part after,
    index self = before ++ part ++ after
    /\ list_ parameters self = (Ok (map lightweight part), self)
    /\ Forall (fun d => chunks d = [] /\ matches d = [] /\ parent_id d = "")
         (map lightweight part).
Proof.
  rewrite list_run.
  destruct (slice_segment (index self) (get (p_offset parameters) 0)
              (get (p_offset parameters) 0 + get (p_limit parameters) Py.maxsize))
    as (before & after & Hsplit).
  eexists before, _, after. split; [exact Hsplit|]. split; [done|].
  apply Forall_forall. intros d [x [-> _]]%list_elem_of_fmap. done.
Qed.

(** *** [delete], further *)

Lemma delete_filter_run (QueryParser : json -> result (Document -> bool))
    (parameters : Parameters) (self : Executor) (filter' : json) (check : Document -> bool) :
  adapt_filter (get (p_filter parameters) (JDict [])) = Ok filter' ->
  filter' <> JDict [] ->
  QueryParser filter' = Ok check ->
  delete QueryParser parameters self
  = (Ok [], mkExecutor (traversal_paths self)
              (List.filter (fun d => negb (check d)) (index self))).
Proof.
  intros Hadapt Hne Hparse.
  unfold delete, bind. rewrite filter_docs_run, Hadapt. simpl.
  rewrite (find_nonempty _ _ _ check) by done.
  destruct self as [paths stored]. simpl.
  pose proof (remove_selected check paths stored [] (Forall_nil_2 _)) as Hloop.
  simpl in Hloop. by rewrite Hloop.
Qed.

Lemma filter_twice {A} (keep : A -> bool) (l : list A) :
  List.filter keep (List.filter keep l) = List.filter keep l.
Proof.
  induction l as [|x l IH]; simpl; [done|].
  destruct (keep x) eqn:Hx; simpl; [by rewrite Hx, IH|done].
Qed.

Section DeleteFurther.
Variable QueryParser : json -> result (Document -> bool).

(** X10: delete, then list.  After a [delete] whose filter the rewrite
    turns into a non-empty filter that the backend accepts, [list]
    without parameters answers the lightweight copies of exactly the
    stored documents that did not satisfy the filter, in their order:
    no document satisfying it is listed any more. *)
Theorem delete_then_list
    (parameters : Parameters) (self : Executor) (filter' : json) (check : Document -> bool) :
  adapt_filter (get (p_filter parameters) (JDict [])) = Ok filter' ->
  filter' <> JDict [] ->
  QueryParser filter' = Ok check ->
  Z.of_nat (length (index self)) <= Py.maxsize ->
  exists listed self',
    (delete QueryParser parameters ;; list_ no_parameters) self = (Ok listed, self')
    /\ listed = map lightweight (List.filter (fun d => negb (check d)) (index self))
    /\ index self' = List.filter (fun d => negb (check d)) (index self)
    /\ Forall (fun d => check d = false) (index self').
Proof.
  intros Hadapt Hne Hparse Hlen. unfold bind.
  rewrite (delete_filter_run _ _ _ filter' check) by done.
  rewrite list_run. simpl.
  assert (Hshort : Z.of_nat (length (List.filter (fun d => negb (check d)) (index self)))
                   <= Py.maxsize).
  { pose proof (List.filter_length_le (fun d => negb (check d)) (index self)). lia. }
  rewrite (slice_unbounded _ 0) by done.
  do 2 eexists. split; [reflexivity|]. split; [done|]. split; [done|].
  simpl. apply Forall_forall. intros d Hd.
  apply list_elem_of_In, List.filter_In in Hd as [_ Hd].
  by apply negb_true_iff.
Qed.

(** X11: deleting twice.  A second [delete] with the same filter
    removes nothing more: running the request twice leaves the executor
    exactly as running it once, and neither run raises. *)
Theorem delete_twice
    (parameters : Parameters) (self : Executor) (filter' : json) (check : Document -> bool) :
  adapt_filter (get (p_filter parameters) (JDict [])) = Ok filter' ->
  filter' <> JDict [] ->
  QueryParser filter' = Ok check ->
  (delete QueryParser parameters ;; delete QueryParser parameters) self
  = delete QueryParser parameters self.
Proof.
  intros Hadapt Hne Hparse. unfold bind.
  rewrite (delete_filter_run _ _ self filter' check) by done.
  rewrite (delete_filter_run _ _ _ filter' check) by done.
  simpl. by rewrite filter_twice.
Qed.

End DeleteFurther.

Lemma remove_member (doc : Document) (docs : DocumentArray) :
  doc ∈ docs ->
  exists docs', remove doc docs = Ok docs'
                /\ S (length docs') = length docs
                /\ sublist docs' docs.
Proof.
  induction docs as [|d docs IH]; simpl; intros Hin; [by apply elem_of_nil in Hin|].
  case_bool_decide as Heq.
  - exists docs. split; [done|]. split; [done|]. by apply sublist_cons.
  - apply elem_of_cons in Hin as [->|Hin]; [done|].
    destruct (IH Hin) as (docs' & -> & Hlen & Hsub). simpl.
    exists (d :: docs'). split; [done|]. split; [simpl; lia|]. by apply sublist_skip.
Qed.

(** The walk over the shrinking store: every visit removes one
    document and moves one position on, so from position [i] of an
    array of [n] documents it ends with half of [i + n], rounded down. *)
Lemma remove_while_iterating_length (fuel : nat) :
  forall (position : nat) (self : Executor),
    (length (index self) <= position + fuel)%nat ->
    exists self',
      remove_while_iterating fuel position self = (Ok tt, self')
      /\ traversal_paths self' = traversal_paths self
      /\ sublist (index self') (index self)
      /\ length (index self')
         = (if position <? length (index self)
            then (position + length (index self)) / 2
            else length (index self))%nat.
Proof.
  induction fuel as [|fuel IH]; intros position self Hfuel.
  - exists self. split; [done|]. split; [done|]. split; [done|].
    destruct (Nat.ltb_spec position (length (index self))); [lia|done].
  - cbn [remove_while_iterating]. unfold bind, self_index. cbn [fst snd].
    destruct (index self !! position) as [doc|] eqn:Hdoc.
    + assert (Hlt : (position < length (index self))%nat) by (by eapply lookup_lt_Some).
      assert (Hin : doc ∈ index self) by (by eapply list_elem_of_lookup_2).
      destruct (remove_member doc (index self) Hin) as (stored & Hrem & Hlen & Hsub).
      rewrite remove_from_index_run, Hrem.
      destruct (IH (S position) (mkExecutor (traversal_paths self) stored))
        as (self' & Hrun & Hpaths & Hsub' & Hlen'); [simpl; lia|].
      exists self'. split; [done|]. split; [done|]. cbn [index traversal_paths] in *.
      split; [by etransitivity|].
      rewrite Hlen'.
      destruct (Nat.ltb_spec position (length (index self))); [|lia].
      destruct (Nat.ltb_spec (S position) (length stored)).
      * replace (S position + length stored)%nat
          with (position + length (index self))%nat by lia. done.
      * pose proof (Nat.div_mod_eq (position + length (index self)) 2) as Hdiv.
        pose proof (Nat.mod_upper_bound (position + length (index self)) 2) as Hmod.
        lia.
    + exists self. split; [done|]. split; [done|]. split; [done|].
      apply lookup_ge_None_1 in Hdoc.
      destruct (Nat.ltb_spec position (length (index self))); [lia|done].
Qed.

(** X12: [delete] without a filter.  With no filter, or the empty one,
    the request is answered without an exception whatever the store
    holds, but the loop runs over the array it is removing from: of [N]
    stored documents [N / 2] (rounded down) are still stored
    afterwards, a part of the former store in its order. *)
Theorem delete_without_filter
    (QueryParser : json -> result (Document -> bool))
    (parameters : Parameters) (self : Executor) :
  get (p_filter parameters) (JDict []) = JDict [] ->
  exists self',
    delete QueryParser parameters self = (Ok [], self')
    /\ traversal_paths self' = traversal_paths self
    /\ sublist (index self') (index self)
    /\ length (index self') = (length (index self) / 2)%nat.
Proof.
  intros Hfilter.
  destruct (remove_while_iterating_length (length (index self)) 0 self)
    as (self' & Hrun & Hpaths & Hsub & Hlen); [lia|].
  exists self'. split; [|split; [done|split; [done|]]].
  - unfold delete, bind. rewrite filter_docs_run, Hfilter.
    cbn [adapt_filter Py.dict_get rbind find fst snd]. unfold self_index.
    by rewrite Hrun.
  - rewrite Hlen. destruct (Nat.ltb_spec 0 (length (index self))) as [|Hzero]; [done|].
    assert (length (index self) = 0%nat) as -> by lia. done.
Qed.

(** *** The filter rewrite, further *)

Lemma dict_set_keys {V} (k : string) (v v0 : V) (d : list (string * V)) :
  Py.dict_get k d = Some v0 -> map fst (Py.dict_set k v d) = map fst d.
Proof.
  induction d as [|[k' v'] d IH]; simpl; [done|].
  destruct (String.eqb_spec k k') as [->|Hne]; simpl; [done|].
  intros Hget. by rewrite IH.
Qed.

Lemma dict_get_set_other {V} (k k' : string) (v : V) (d : list (string * V)) :
  k' <> k -> Py.dict_get k' (Py.dict_set k v d) = Py.dict_get k' d.
Proof.
  intros Hne. induction d as [|[k0 v0] d IH]; simpl.
  - by rewrite (proj2 (String.eqb_neq k' k)).
  - destruct (String.eqb_spec k k0) as [->|Hne0]; simpl.
    + by rewrite (proj2 (String.eqb_neq k' k0)).
    + by rewrite IH.
Qed.

Lemma dict_get_set_same {V} (k : string) (v : V) (d : list (string * V)) :
  Py.dict_get k (Py.dict_set k v d) = Some v.
Proof.
  induction d as [|[k0 v0] d IH]; simpl.
  - by rewrite String.eqb_refl.
  - destruct (String.eqb_spec k k0) as [->|Hne0]; simpl.
    + by rewrite String.eqb_refl.
    + by rewrite (proj2 (String.eqb_neq k k0)).
Qed.

Lemma rmap_length {A B} (f : A -> result B) (l : list A) (res : list B) :
  rmap f l = Ok res -> length res = length l.
Proof.
  revert res. induction l as [|x l IH]; simpl; intros res.
  - by intros [= <-].
  - destruct (f x); [|done]. simpl. destruct (rmap f l) as [ys|]; [|done]. simpl.
    intros [= <-]. simpl. by rewrite (IH ys).
Qed.

Lemma rmap_first_raise {A B} (f : A -> result B) (good rest : list A) (bad : A)
    (res : list B) (e : exception) :
  rmap f good = Ok res -> f bad = Raise e -> rmap f (good ++ bad :: rest) = Raise e.
Proof.
  revert res. induction good as [|x good IH]; simpl; intros res.
  - intros _ ->. done.
  - destruct (f x); [|done]. simpl.
    destruct (rmap f good) as [ys|] eqn:Hgood; [|done].
    intros _ Hbad. by rewrite (IH ys).
Qed.

(** X13: the rewrite touches the [$and] entry only.  Whenever the
    rewrite of a filter dict succeeds, the result is a dict with the
    same keys in the same order; every entry other than [$and] is
    exactly as it was, and a [$and] list comes back as a list with as
    many items. *)
Theorem adapt_filter_only_and (entries : list (string * json)) (filter' : json) :
  adapt_filter (JDict entries) = Ok filter' ->
  exists entries',
    filter' = JDict entries'
    /\ map fst entries' = map fst entries
    /\ (forall k, k <> "$and" -> Py.dict_get k entries' = Py.dict_get k entries)
    /\ (forall queries, Py.dict_get "$and" entries = Some (JList queries) ->
        exists queries', Py.dict_get "$and" entries' = Some (JList queries')
                         /\ length queries' = length queries).
Proof.
  cbn [adapt_filter].
  destruct (Py.dict_get "$and" entries) as [[atom|queries|d]|] eqn:Hand.
  - destruct (Py.iter (JAtom atom)) as [items|]; [|done]. simpl.
    destruct (rmap adapt_query items); [|done]. simpl.
    intros [= <-]. exists entries. by repeat split.
  - destruct (rmap adapt_query queries) as [queries'|] eqn:Hmap; [|done]. simpl.
    intros [= <-]. eexists. split; [done|].
    split; [by eapply dict_set_keys|].
    split; [intros k Hk; by apply dict_get_set_other|].
    intros ? [= <-]. exists queries'. split; [apply dict_get_set_same|].
    by eapply rmap_length.
  - destruct (Py.iter (JDict d)) as [items|]; [|done]. simpl.
    destruct (rmap adapt_query items); [|done]. simpl.
    intros [= <-]. exists entries. by repeat split.
  - intros [= <-]. exists entries. by repeat split.
Qed.

(** X14: the first item that is not a dict with a key decides the
    exception.  Under a [$and] list whose items are dicts with at least
    one key up to some item, the rewrite raises [IndexError] if that
    item is the empty dict and [AttributeError] if it is not a dict at
    all, whatever follows it. *)
Theorem adapt_filter_bad_item
    (entries : list (string * json)) (good rest : list json) (bad : json) :
  Py.dict_get "$and" entries = Some (JList (good ++ bad :: rest)) ->
  forallb keyed_dict good = true ->
  keyed_dict bad = false ->
  adapt_filter (JDict entries)
  = Raise (match bad with JDict _ => IndexError | _ => AttributeError end).
Proof.
  intros Hand Hgood Hbad. cbn [adapt_filter]. rewrite Hand.
  rewrite (rmap_first_raise adapt_query good rest bad (map prefix_first_key good)
             (match bad with JDict _ => IndexError | _ => AttributeError end));
    [done|by apply adapt_keyed|].
  by destruct bad as [| |[|]].
Qed.

(** X15: the rewrite does not recognise its own output.  Applied again
    to the filter it produced from a [$and] of single-key leaves, as
    happens when one filter dict goes through two requests, it prefixes
    every key a second time: a leaf on [k] ends up on
    [tags__tags__k]. *)
Theorem adapt_filter_again (leaves : list (string * json)) :
  let filter := JDict [("$and", JList (map (fun kv => JDict [kv]) leaves))] in
  let once := JDict [("$and",
                JList (map (fun kv => JDict [("tags__" +:+ fst kv, snd kv)]) leaves))] in
  let twice := JDict [("$and",
                 JList (map (fun kv => JDict [("tags__" +:+ "tags__" +:+ fst kv, snd kv)])
                          leaves))] in
  adapt_filter filter = Ok once /\ adapt_filter once = Ok twice.
Proof.
  assert (Hleaf : forall (f : string * json -> string) (l : list (string * json)),
            rmap adapt_query (map (fun kv => JDict [(f kv, snd kv)]) l)
            = Ok (map (fun kv => JDict [("tags__" +:+ f kv, snd kv)]) l)).
  { intros f l. induction l as [|kv l IH]; [done|].
    cbn [map rmap]. rewrite IH. unfold adapt_query.
    cbn [Py.dict_set]. rewrite prefixed_differs.
    cbn [Py.dict_del Py.dict_set]. by rewrite String.eqb_refl. }
  split.
  - assert (Hsame : map (fun kv : string * json => JDict [kv]) leaves
                    = map (fun kv => JDict [(fst kv, snd kv)]) leaves)
      by (apply map_ext; by intros []).
    cbn [adapt_filter Py.dict_get]. rewrite String.eqb_refl.
    rewrite Hsame, (Hleaf fst leaves).
    cbn [rbind Py.dict_set]. by rewrite String.eqb_refl.
  - cbn [adapt_filter Py.dict_get]. rewrite String.eqb_refl.
    rewrite (Hleaf (fun kv => "tags__" +:+ fst kv) leaves).
    cbn [rbind Py.dict_set]. by rewrite String.eqb_refl.
Qed.

(** *** The gateway's filter at the indexer *)

Lemma query_filter_get (k : string) (filters : list (string * json)) :
  Py.dict_get k (BffSearch.query_filter filters)
  = option_map (fun v => JDict [("$eq", v)]) (Py.dict_get k filters).
Proof.
  induction filters as [|[k' v'] filters IH]; simpl; [done|].
  by destruct (String.eqb k k').
Qed.

(** X16: a gateway request at the indexer.  The filter that the search
    route builds, [{key: {'$eq': value}}] for every field of the
    request, has no top-level [$and]: [filter_docs] hands it to the
    backend as it is, with no key moved into the tag namespace and for
    the empty dict without any filtering.  Only a field that is itself
    called [$and] is looked into, and then the request ends with
    [AttributeError]. *)
Theorem gateway_filter_at_indexer
    (QueryParser : json -> result (Document -> bool))
    (limit : Z) (filters : list (string * json)) (self : Executor) :
  filter_docs QueryParser (BffSearch.parameters limit filters) self
  = match Py.dict_get "$and" filters with
    | None => (find QueryParser (index self) (JDict (BffSearch.query_filter filters)), self)
    | Some _ => (Raise AttributeError, self)
    end.
Proof.
  rewrite filter_docs_run.
  change (get (p_filter (BffSearch.parameters limit filters)) (JDict []))
    with (JDict (BffSearch.query_filter filters)).
  cbn [adapt_filter]. rewrite query_filter_get.
  by destruct (Py.dict_get "$and" filters).
Qed.

(** ** The request helpers of the playground *)

Lemma value_nested_ind (P : value -> Prop) :
  P VNone ->
  (forall s, P (VStr s)) ->
  (forall z, P (VNum z)) ->
  (forall items, Forall P items -> P (VList items)) ->
  (forall items, Forall P items -> P (VTuple items)) ->
  (forall entries, Forall (fun kv => P (snd kv)) entries -> P (VDict entries)) ->
  (forall entries, Forall (fun kv => P (snd kv)) entries -> P (VFrozen entries)) ->
  (forall hashable, P (VOpaque hashable)) ->
  forall v, P v.
Proof.
  intros HNone HStr HNum HList HTuple HDict HFrozen HOpaque.
  fix IH 1. intros [| s | z | items | items | entries | entries | hashable].
  - exact HNone.
  - apply HStr.
  - apply HNum.
  - apply HList. induction items as [|i items IHitems]; constructor; [apply IH|exact IHitems].
  - apply HTuple. induction items as [|i items IHitems]; constructor; [apply IH|exact IHitems].
  - apply HDict. induction entries as [|[k v] entries IHentries]; constructor;
      [apply IH|exact IHentries].
  - apply HFrozen. induction entries as [|[k v] entries IHentries]; constructor;
      [apply IH|exact IHentries].
  - apply HOpaque.
Qed.

Lemma deep_freeze_mapping (entries : list (string * value)) :
  deep_freeze (VDict entries) = (try fs := freeze_entries entries in Ok (VFrozen fs))
  /\ deep_freeze (VFrozen entries) = (try fs := freeze_entries entries in Ok (VFrozen fs)).
Proof.
  assert (Hloop : forall es,
    (fix freeze_items (es : list (string * value)) : result (list (string * value)) :=
       match es with
       | [] => Ok []
       | (k, v) :: es' =>
           try v' := deep_freeze v in
           try rest := freeze_items es' in
           Ok ((k, v') :: rest)
       end) es = freeze_entries es).
  { induction es as [|[k v] es IH]; [done|]. rewrite IH. unfold freeze_entries. simpl.
    by destruct (deep_freeze v). }
  split; simpl; by rewrite Hloop.
Qed.

Lemma deep_freeze_collection (items : list value) :
  deep_freeze (VList items) = (try fs := freeze_items items in Ok (VTuple fs))
  /\ deep_freeze (VTuple items) = (try fs := freeze_items items in Ok (VTuple fs)).
Proof.
  assert (Hloop : forall l,
    (fix freeze_all (l : list value) : result (list value) :=
       match l with
       | [] => Ok []
       | i :: l' =>
           try i' := deep_freeze i in
           try rest := freeze_all l' in
           Ok (i' :: rest)
       end) l = freeze_items l).
  { induction l as [|i l IH]; [done|]. by rewrite IH. }
  split; simpl; by rewrite Hloop.
Qed.

Lemma unfreeze_mapping (entries : list (string * value)) :
  unfreeze_param (VDict entries) = (try es := unfreeze_entries entries in Ok (VDict es))
  /\ unfreeze_param (VFrozen entries) = (try es := unfreeze_entries entries in Ok (VDict es)).
Proof.
  assert (Hloop : forall es,
    (fix unfreeze_items (es : list (string * value)) : result (list (string * value)) :=
       match es with
       | [] => Ok []
       | (k, v) :: es' =>
           try v' :=
             match v with
             | VFrozen _ => unfreeze_param v
             | _ => Ok v
             end in
           try rest := unfreeze_items es' in
           Ok ((k, v') :: rest)
       end) es = unfreeze_entries es).
  { induction es as [|[k v] es IH]; [done|]. rewrite IH. unfold unfreeze_entries, thaw. simpl.
    destruct v; try done. by destruct (unfreeze_param _). }
  split; simpl; by rewrite Hloop.
Qed.

Lemma rmap_fixed {A} (f : A -> result A) (l : list A) :
  Forall (fun x => f x = Ok x) l -> rmap f l = Ok l.
Proof. induction 1 as [|x l Hx _ IH]; simpl; [done|]. by rewrite Hx, IH. Qed.

Lemma forallb_Forall_impl {A} (test : A -> bool) (P : A -> Prop) (l : list A) :
  Forall (fun x => test x = true -> P x) l -> forallb test l = true -> Forall P l.
Proof.
  induction 1 as [|x l Hx _ IH]; simpl; [constructor|].
  intros [Htest Hrest]%andb_prop. constructor; auto.
Qed.

Lemma Forall_forallb {A} (test : A -> bool) (l : list A) :
  Forall (fun x => test x = true) l -> forallb test l = true.
Proof. induction 1 as [|x l Hx _ IH]; simpl; [done|]. by rewrite Hx, IH. Qed.

Lemma frozen_fixed (v : value) : frozen v = true -> deep_freeze v = Ok v.
Proof.
  induction v as [| s | z | items IH | items IH | entries IH | entries IH | [|]]
    using value_nested_ind; cbn [frozen]; try done.
  - intros Hall. rewrite (proj2 (deep_freeze_collection items)).
    unfold freeze_items. rewrite rmap_fixed; [done|].
    by apply (forallb_Forall_impl frozen).
  - intros Hall. rewrite (proj2 (deep_freeze_mapping entries)).
    unfold freeze_entries. rewrite rmap_fixed; [done|].
    assert (Hvalues : Forall (fun kv => deep_freeze (snd kv) = Ok (snd kv)) entries)
      by (by apply (forallb_Forall_impl (fun kv => frozen (snd kv)))).
    eapply Forall_impl; [exact Hvalues|]. intros [k v] Hv. simpl in *. by rewrite Hv.
Qed.

Lemma immutable_frozen (v : value) : immutable v = true -> frozen v = true.
Proof.
  induction v as [| s | z | items IH | items IH | entries IH | entries IH | [|]]
    using value_nested_ind; simpl; try done.
  intros Hall. apply forallb_forall. intros x Hx.
  rewrite Forall_forall in IH. apply IH; [by apply list_elem_of_In|].
  rewrite forallb_forall in Hall. by apply Hall.
Qed.

(** The outcome of the comprehensions, item by item. *)
Lemma rmap_outcome {A B} (f : A -> result B) (good : A -> bool) (P : B -> Prop)
    (e : exception) (l : list A) :
  Forall (fun x => (good x = true -> exists y, f x = Ok y /\ P y)
                   /\ (good x = false -> f x = Raise e)) l ->
  (forallb good l = true -> exists ys, rmap f l = Ok ys /\ Forall P ys)
  /\ (forallb good l = false -> rmap f l = Raise e).
Proof.
  induction 1 as [|x l [Hgood Hbad] _ [IHgood IHbad]]; simpl.
  - split; [|done]. intros _. exists []. by split.
  - destruct (good x) eqn:Hx; simpl.
    + destruct (Hgood eq_refl) as (y & -> & Hy). simpl. split.
      * intros Hrest. destruct (IHgood Hrest) as (ys & -> & Hys). simpl.
        exists (y :: ys). split; [done|]. by constructor.
      * intros Hrest. by rewrite (IHbad Hrest).
    + split; [done|]. intros _. by rewrite (Hbad eq_refl).
Qed.

(** Item by item: a freezable value freezes to a value without dict or
    list, any other raises [TypeError]. *)
Lemma deep_freeze_cases (v : value) :
  (freezable v = true -> exists f, deep_freeze v = Ok f /\ frozen f = true)
  /\ (freezable v = false -> deep_freeze v = Raise TypeError).
Proof.
  induction v as [| s | z | items IH | items IH | entries IH | entries IH | [|]]
    using value_nested_ind; simpl freezable;
    try (split; [intros _; by eexists|done]).
  - rewrite (proj1 (deep_freeze_collection items)).
    destruct (rmap_outcome deep_freeze freezable (fun y => frozen y = true)
                TypeError items IH) as [Hok Hbad]. split.
    + intros Hall. destruct (Hok Hall) as (ys & Hys & Hfrozen).
      unfold freeze_items. rewrite Hys. eexists. split; [done|].
      simpl. by apply Forall_forallb.
    + intros Hsome. unfold freeze_items. by rewrite (Hbad Hsome).
  - rewrite (proj2 (deep_freeze_collection items)).
    destruct (rmap_outcome deep_freeze freezable (fun y => frozen y = true)
                TypeError items IH) as [Hok Hbad]. split.
    + intros Hall. destruct (Hok Hall) as (ys & Hys & Hfrozen).
      unfold freeze_items. rewrite Hys. eexists. split; [done|].
      simpl. by apply Forall_forallb.
    + intros Hsome. unfold freeze_items. by rewrite (Hbad Hsome).
  - rewrite (proj1 (deep_freeze_mapping entries)).
    destruct (rmap_outcome
                (fun kv => try v' := deep_freeze (snd kv) in Ok (fst kv, v'))
                (fun kv => freezable (snd kv)) (fun kv => frozen (snd kv) = true)
                TypeError entries) as [Hok Hbad].
    { eapply Forall_impl; [exact IH|]. intros [k x] [Hg Hb]. simpl in *. split.
      - intros Hx. destruct (Hg Hx) as (y & -> & Hy). by eexists.
      - intros Hx. by rewrite (Hb Hx). }
    split.
    + intros Hall. destruct (Hok Hall) as (ys & Hys & Hfrozen).
      unfold freeze_entries. rewrite Hys. eexists. split; [done|].
      simpl. by apply Forall_forallb.
    + intros Hsome. unfold freeze_entries. by rewrite (Hbad Hsome).
  - rewrite (proj2 (deep_freeze_mapping entries)).
    destruct (rmap_outcome
                (fun kv => try v' := deep_freeze (snd kv) in Ok (fst kv, v'))
                (fun kv => freezable (snd kv)) (fun kv => frozen (snd kv) = true)
                TypeError entries) as [Hok Hbad].
    { eapply Forall_impl; [exact IH|]. intros [k x] [Hg Hb]. simpl in *. split.
      - intros Hx. destruct (Hg Hx) as (y & -> & Hy). by eexists.
      - intros Hx. by rewrite (Hb Hx). }
    split.
    + intros Hall. destruct (Hok Hall) as (ys & Hys & Hfrozen).
      unfold freeze_entries. rewrite Hys. eexists. split; [done|].
      simpl. by apply Forall_forallb.
    + intros Hsome. unfold freeze_entries. by rewrite (Hbad Hsome).
  - by split.
Qed.

(** X17: what [deep_freeze] answers and when it raises.  It raises
    exactly when an unhashable object occurs somewhere in the value,
    and then [TypeError]; otherwise its answer holds no dict and no
    list at any depth, and freezing that answer again changes
    nothing. *)
Theorem deep_freeze_outcome (v : value) :
  (freezable v = true ->
   exists f, deep_freeze v = Ok f /\ frozen f = true /\ deep_freeze f = Ok f)
  /\ (freezable v = false -> deep_freeze v = Raise TypeError).
Proof.
  destruct (deep_freeze_cases v) as [Hok Hbad]. split; [|done].
  intros Hv. destruct (Hok Hv) as (f & Hf & Hfrozen).
  exists f. split; [done|]. split; [done|]. by apply frozen_fixed.
Qed.

Lemma immutable_thaw (v : value) : immutable v = true -> thaw v = Ok v.
Proof. by destruct v. Qed.

Lemma plain_round_trip (v : value) :
  plain v = true -> exists f, deep_freeze v = Ok f /\ thaw f = Ok v.
Proof.
  induction v as [| s | z | items IH | items IH | entries IH | entries IH | [|]]
    using value_nested_ind; cbn [plain immutable]; try done;
    try (intros _; by eexists).
  - intros Hall. exists (VTuple items). split; [|done].
    by apply frozen_fixed, (immutable_frozen (VTuple items)).
  - intros Hall.
    assert (Hentries : exists fes, freeze_entries entries = Ok fes
                                   /\ unfreeze_entries fes = Ok entries).
    { clear -IH Hall. induction IH as [|[k v] entries Hv _ IHentries]; simpl in *.
      - by exists [].
      - apply andb_prop in Hall as [Hplain Hrest].
        destruct (Hv Hplain) as (f & Hf & Hthaw).
        destruct (IHentries Hrest) as (fes & Hfes & Hback).
        exists ((k, f) :: fes). unfold freeze_entries, unfreeze_entries in *. simpl.
        by rewrite Hf, Hfes, Hthaw, Hback. }
    destruct Hentries as (fes & Hfes & Hback).
    exists (VFrozen fes). rewrite (proj1 (deep_freeze_mapping entries)), Hfes.
    split; [done|]. unfold thaw.
    by rewrite (proj2 (unfreeze_mapping fes)), Hback.
Qed.

(** X18: request data survive the cache.  For request data that are a
    dict of hashable scalars, tuples of them and dicts of the same
    kind, nested to any depth, freezing the arguments for the cache and
    unfreezing them in [call_flow] gives back exactly the dict that was
    passed in. *)
Theorem request_round_trip (entries : list (string * value)) :
  forallb (fun kv => plain (snd kv)) entries = true ->
  call_flow_data (VDict entries) = Ok (VDict entries).
Proof.
  intros Hplain. destruct (plain_round_trip (VDict entries) Hplain) as (f & Hf & Hthaw).
  unfold call_flow_data. rewrite Hf. simpl.
  rewrite (proj1 (deep_freeze_mapping entries)) in Hf.
  destruct (freeze_entries entries) as [fes|]; [|done].
  injection Hf as <-. exact Hthaw.
Qed.

Lemma rmap_In {A B} (f : A -> result B) (l : list A) (ys : list B) (x : A) :
  rmap f l = Ok ys -> In x l -> exists y, f x = Ok y /\ In y ys.
Proof.
  revert ys. induction l as [|a l IH]; simpl; intros ys; [done|].
  destruct (f a) as [b|] eqn:Ha; [|done]. simpl.
  destruct (rmap f l) as [bs|]; [|done]. simpl. intros [= <-] [->|Hin].
  - exists b. split; [done|]. by left.
  - destruct (IH bs eq_refl Hin) as (y & Hy & Hin'). exists y. split; [done|]. by right.
Qed.

(** X19: lists are not restored.  Whenever [call_flow] gets its data,
    every value of the request dict that was a list is there as
    [deep_freeze] left it, a tuple with its items still frozen: the
    unfreezing only follows dicts. *)
Theorem list_values_stay_frozen
    (entries posted : list (string * value)) (k : string) (items : list value) :
  call_flow_data (VDict entries) = Ok (VDict posted) ->
  In (k, VList items) entries ->
  exists fs, freeze_items items = Ok fs
             /\ Forall (fun f => frozen f = true) fs
             /\ In (k, VTuple fs) posted.
Proof.
  unfold call_flow_data. rewrite (proj1 (deep_freeze_mapping entries)).
  destruct (freeze_entries entries) as [fes|] eqn:Hfes; [|done]. cbn [rbind].
  rewrite (proj2 (unfreeze_mapping fes)).
  destruct (unfreeze_entries fes) as [es|] eqn:Hes; [|done]. cbn [rbind].
  intros [= <-] Hin.
  destruct (rmap_In _ _ _ _ Hfes Hin) as ([k' t] & Ht & Hin'). cbn [fst snd] in Ht.
  rewrite (proj1 (deep_freeze_collection items)) in Ht.
  destruct (freeze_items items) as [fs|] eqn:Hfs; [|done]. cbn [rbind] in Ht.
  injection Ht as <- <-.
  destruct (rmap_In _ _ _ _ Hes Hin') as ([k'' t'] & Ht' & Hin'').
  cbn [fst snd thaw rbind] in Ht'. injection Ht' as <- <-.
  exists fs. split; [done|]. split; [|done].
  destruct (deep_freeze_cases (VList items)) as [Hok Hbad].
  destruct (freezable (VList items)) eqn:Hfreezable.
  - destruct (Hok eq_refl) as (f & Hf & Hfrozen).
    rewrite (proj1 (deep_freeze_collection items)), Hfs in Hf. cbn [rbind] in Hf.
    injection Hf as <-. cbn [frozen] in Hfrozen.
    apply Forall_forall. intros x Hx. rewrite forallb_forall in Hfrozen.
    by apply Hfrozen, list_elem_of_In.
  - specialize (Hbad eq_refl).
    rewrite (proj1 (deep_freeze_collection items)), Hfs in Hbad. done.
Qed.

(** ** Further instances *)

(** A root-level search on the sample store without a filter. *)
Lemma search_roots_without_filter_witness :
  effective_paths no_parameters Sample.store = "@r"
  /\ get (p_filter no_parameters) (JDict []) = JDict []
  /\ search InMemory.QueryParser InMemory.da_match [Sample.bare_query]
       no_parameters Sample.store
     = (Ok [set_matches Sample.bare_query [Sample.r1; Sample.r2]], Sample.store).
Proof.
  split; [reflexivity|]. split; [reflexivity|].
  apply (search_roots_without_filter InMemory.QueryParser InMemory.da_match
           [Sample.bare_query] no_parameters Sample.store); reflexivity.
Defined.

(** A root-level search for the red documents. *)
Lemma search_roots_with_filter_witness :
  exists check,
    effective_paths (filtering Sample.and_color None) Sample.store = "@r"
    /\ adapt_filter Sample.and_color = Ok (translate Sample.and_color)
    /\ translate Sample.and_color <> JDict []
    /\ InMemory.QueryParser (translate Sample.and_color) = Ok check
    /\ List.filter check (index Sample.store) = [Sample.r1]
    /\ search InMemory.QueryParser InMemory.da_match [Sample.bare_query]
         (filtering Sample.and_color None) Sample.store
       = (InMemory.da_match [Sample.bare_query]
            (List.filter check (index Sample.store)) 20, Sample.store).
Proof.
  eexists.
  split; [reflexivity|]. split; [reflexivity|]. split; [discriminate|].
  split; [reflexivity|]. split; [reflexivity|].
  eapply (search_roots_with_filter InMemory.QueryParser InMemory.da_match
           [Sample.bare_query] (filtering Sample.and_color None) Sample.store
           (translate Sample.and_color));
    [reflexivity | reflexivity | discriminate | reflexivity].
Defined.

(** A chunk-level search with an empty batch. *)
Lemma search_chunks_without_documents_witness :
  effective_paths Sample.chunk_level Sample.store = "@c"
  /\ search InMemory.QueryParser InMemory.da_match [] Sample.chunk_level Sample.store
     = (Raise IndexError, mkExecutor "@r" [Sample.c1; Sample.c2; Sample.c3]).
Proof.
  split; [reflexivity|].
  apply (search_chunks_without_documents InMemory.QueryParser InMemory.da_match
           Sample.chunk_level Sample.store). reflexivity.
Defined.

(** The [filter] endpoint on the sample store: at chunk level without
    a condition, and at root level with the condition
    [{'tags__color': {'$eq': 'red'}}]. *)
Lemma filter_applies_condition_witness :
  exists check,
    (effective_paths Sample.chunk_level Sample.store = "@r"
     \/ effective_paths Sample.chunk_level Sample.store = "@c")
    /\ filter_ InMemory.QueryParser Sample.chunk_level Sample.store
       = (Ok [Sample.c1; Sample.c2; Sample.c3], Sample.store)
    /\ (effective_paths (filtering Sample.bare_leaf None) Sample.store = "@r"
        \/ effective_paths (filtering Sample.bare_leaf None) Sample.store = "@c")
    /\ Sample.bare_leaf <> JDict []
    /\ InMemory.QueryParser Sample.bare_leaf = Ok check
    /\ List.filter check (index Sample.store) = [Sample.r1]
    /\ filter_ InMemory.QueryParser (filtering Sample.bare_leaf None) Sample.store
       = (Ok [Sample.r1], Sample.store).
Proof.
  eexists.
  split; [right; reflexivity|].
  split.
  { apply (filter_applies_condition InMemory.QueryParser Sample.chunk_level Sample.store);
      [right; reflexivity | reflexivity]. }
  split; [left; reflexivity|]. split; [discriminate|]. split; [reflexivity|].
  split; [reflexivity|].
  etransitivity;
    [eapply (proj2 (filter_applies_condition InMemory.QueryParser
                      (filtering Sample.bare_leaf None) Sample.store
                      (or_introl eq_refl)) Sample.bare_leaf);
       [reflexivity | discriminate | reflexivity]
    | reflexivity].
Defined.

(** Three matched chunks of two parents, limit 2, parents stored. *)
Lemma merge_matches_first_parents_witness :
  0 < 2
  /\ Forall (fun d => forallb (stored_key (index Sample.store)) (wanted_parents 2 d) = true)
       [Sample.matched_chunk]
  /\ merge_matches [Sample.matched_chunk] 2 Sample.store
     = (Ok [set_matches Sample.matched_chunk
              [set_chunks Sample.r1 []; set_chunks Sample.r2 []]], Sample.store).
Proof.
  split; [lia|]. split; [repeat constructor|].
  apply (merge_matches_first_parents [Sample.matched_chunk] 2 Sample.store);
    [lia | repeat constructor].
Defined.

(** The same matches when the store holds the chunks, not the parents. *)
Lemma merge_matches_missing_parent_witness :
  0 < 2
  /\ Exists (fun d => forallb (stored_key [Sample.c1; Sample.c2; Sample.c3])
                        (wanted_parents 2 d) = false) [Sample.matched_chunk]
  /\ merge_matches [Sample.matched_chunk] 2
       (mkExecutor "@r" [Sample.c1; Sample.c2; Sample.c3])
     = (Raise KeyError, mkExecutor "@r" [Sample.c1; Sample.c2; Sample.c3]).
Proof.
  split; [lia|]. split; [by constructor|].
  apply (merge_matches_missing_parent [Sample.matched_chunk] 2
           (mkExecutor "@r" [Sample.c1; Sample.c2; Sample.c3]));
    [lia | by constructor].
Defined.

(** Two batches into the sample store. *)
Lemma index_batches_witness :
  Z.of_nat (length (index Sample.store ++ [Sample.c1] ++ [Sample.c2])) <= Py.maxsize
  /\ (index_ [Sample.c1] ;; index_ [Sample.c2]) Sample.store
     = index_ ([Sample.c1] ++ [Sample.c2]) Sample.store.
Proof.
  split; [vm_compute; discriminate|].
  apply (index_batches [Sample.c1] [Sample.c2] Sample.store). vm_compute. discriminate.
Defined.

(** [list] with offset -1 on the sample store. *)
Lemma list_negative_bounds_witness :
  0 < 1
  /\ 1 <= Z.of_nat (length (index Sample.store))
  /\ Z.of_nat (length (index Sample.store)) + 1 <= Py.maxsize
  /\ list_ (paging None (Some (- (1)))) Sample.store
     = (Ok [lightweight Sample.r2], Sample.store).
Proof.
  split; [lia|]. split; [vm_compute; discriminate|]. split; [vm_compute; discriminate|].
  apply (list_negative_bounds Sample.store 1);
    [lia | vm_compute; discriminate | vm_compute; discriminate].
Defined.

(** Deleting the red documents, then listing. *)
Lemma delete_then_list_witness :
  exists check,
    adapt_filter (get (p_filter (filtering Sample.and_color None)) (JDict []))
    = Ok (translate Sample.and_color)
    /\ translate Sample.and_color <> JDict []
    /\ InMemory.QueryParser (translate Sample.and_color) = Ok check
    /\ Z.of_nat (length (index Sample.store)) <= Py.maxsize
    /\ exists listed self',
         (delete InMemory.QueryParser (filtering Sample.and_color None) ;;
          list_ no_parameters) Sample.store = (Ok listed, self')
         /\ listed = map lightweight
                       (List.filter (fun d => negb (check d)) (index Sample.store))
         /\ index self' = List.filter (fun d => negb (check d)) (index Sample.store)
         /\ Forall (fun d => check d = false) (index self').
Proof.
  eexists.
  split; [reflexivity|]. split; [discriminate|]. split; [reflexivity|].
  split; [vm_compute; discriminate|].
  eapply (delete_then_list InMemory.QueryParser (filtering Sample.and_color None)
           Sample.store (translate Sample.and_color));
    [reflexivity | discriminate | reflexivity | vm_compute; discriminate].
Defined.

(** Deleting the red documents twice. *)
Lemma delete_twice_witness :
  exists check,
    adapt_filter (get (p_filter (filtering Sample.and_color None)) (JDict []))
    = Ok (translate Sample.and_color)
    /\ translate Sample.and_color <> JDict []
    /\ InMemory.QueryParser (translate Sample.and_color) = Ok check
    /\ (delete InMemory.QueryParser (filtering Sample.and_color None) ;;
        delete InMemory.QueryParser (filtering Sample.and_color None)) Sample.store
       = delete InMemory.QueryParser (filtering Sample.and_color None) Sample.store.
Proof.
  eexists.
  split; [reflexivity|]. split; [discriminate|]. split; [reflexivity|].
  eapply (delete_twice InMemory.QueryParser (filtering Sample.and_color None)
           Sample.store (translate Sample.and_color));
    [reflexivity | discriminate | reflexivity].
Defined.

(** [delete] without parameters on the sample store. *)
Lemma delete_without_filter_witness :
  get (p_filter no_parameters) (JDict []) = JDict []
  /\ exists self',
       delete InMemory.QueryParser no_parameters Sample.store = (Ok [], self')
       /\ traversal_paths self' = traversal_paths Sample.store
       /\ sublist (index self') (index Sample.store)
       /\ length (index self') = (length (index Sample.store) / 2)%nat.
Proof.
  split; [reflexivity|].
  apply (delete_without_filter InMemory.QueryParser no_parameters Sample.store).
  reflexivity.
Defined.

(** The rewrite of a filter with [$and] and a second top-level key. *)
Lemma adapt_filter_only_and_witness :
  let entries := [("$and", JList [JDict [("color", JDict [("$eq", Sample.atom "red")])]]);
                  ("$or", JList [])] in
  let entries' := [("$and", JList [JDict [("tags__color", JDict [("$eq", Sample.atom "red")])]]);
                   ("$or", JList [])] in
  adapt_filter (JDict entries) = Ok (JDict entries')
  /\ exists entries'',
       JDict entries' = JDict entries''
       /\ map fst entries'' = map fst entries
       /\ (forall k, k <> "$and" -> Py.dict_get k entries'' = Py.dict_get k entries)
       /\ (forall queries, Py.dict_get "$and" entries = Some (JList queries) ->
           exists queries', Py.dict_get "$and" entries'' = Some (JList queries')
                            /\ length queries' = length queries).
Proof.
  split; [reflexivity|].
  apply (adapt_filter_only_and
           [("$and", JList [JDict [("color", JDict [("$eq", Sample.atom "red")])]]);
            ("$or", JList [])]).
  reflexivity.
Defined.

(** [{'$and': [{'color': ...}, {}, 5]}]: the empty dict decides. *)
Lemma adapt_filter_bad_item_witness :
  let good := [JDict [("color", JDict [("$eq", Sample.atom "red")])]] in
  let entries := [("$and", JList (good ++ JDict [] :: [JAtom (SNum 5)]))] in
  Py.dict_get "$and" entries = Some (JList (good ++ JDict [] :: [JAtom (SNum 5)]))
  /\ forallb keyed_dict good = true
  /\ keyed_dict (JDict []) = false
  /\ adapt_filter (JDict entries) = Raise IndexError.
Proof.
  split; [reflexivity|]. split; [reflexivity|]. split; [reflexivity|].
  apply (adapt_filter_bad_item
           [("$and", JList ([JDict [("color", JDict [("$eq", Sample.atom "red")])]]
                              ++ JDict [] :: [JAtom (SNum 5)]))]
           [JDict [("color", JDict [("$eq", Sample.atom "red")])]]
           [JAtom (SNum 5)] (JDict []));
    reflexivity.
Defined.

(** Request data with a nested dict and a tuple. *)
Lemma request_round_trip_witness :
  let entries := [("host", VStr "gateway"); ("limit", VNum 9);
                  ("filters", VDict [("color", VStr "red")]);
                  ("query", VDict [("query_text", VDict [("text", VStr "shoe")])]);
                  ("port", VTuple [VNum 8080; VNone])] in
  forallb (fun kv => plain (snd kv)) entries = true
  /\ call_flow_data (VDict entries) = Ok (VDict entries).
Proof.
  split; [reflexivity|].
  apply request_round_trip. reflexivity.
Defined.

(** Request data with a list of dicts. *)
Lemma list_values_stay_frozen_witness :
  let entries := [("ids", VList [VStr "a"; VDict [("k", VNum 1)]])] in
  let posted := [("ids", VTuple [VStr "a"; VFrozen [("k", VNum 1)]])] in
  call_flow_data (VDict entries) = Ok (VDict posted)
  /\ In ("ids", VList [VStr "a"; VDict [("k", VNum 1)]]) entries
  /\ exists fs, freeze_items [VStr "a"; VDict [("k", VNum 1)]] = Ok fs
                /\ Forall (fun f => frozen f = true) fs
                /\ In ("ids", VTuple fs) posted.
Proof.
  split; [reflexivity|]. split; [by left|].
  apply (list_values_stay_frozen
           [("ids", VList [VStr "a"; VDict [("k", VNum 1)]])]
           [("ids", VTuple [VStr "a"; VFrozen [("k", VNum 1)]])]
           "ids" [VStr "a"; VDict [("k", VNum 1)]]);
    [reflexivity | by left].
Defined.
